(** * PGA-tester: the event-to-feedback pipeline of [src/github.ts]

    A shallow embedding of the GitHub service module: the content resolver
    [fetchFullFileContent], the structural aggregator [aggregateASTReport],
    the conversation-context builder inside [handlePullRequestCommentEvent]
    and the two event handlers.

    Conventions of the embedding.
    - A JavaScript string is the list of its UTF-16 code units, each a [Z];
      [length], [substring] and [===] are the list operations on code units,
      which is what the source's [.length] and [.substring] count.
    - A byte is a [Z] in [0, 256).
    - An [await]ed call of the platform client, the parser or the feedback
      generator is an oracle over an abstract [World]; it returns the next
      world and either a value or a thrown JavaScript value.
    - Functions of the source are programs of the monad [M]: local variables,
      the world, the list of observable events (calls made, console lines)
      and a result that is a value or a thrown value. The local variables and
      the world reached when an exception is thrown are kept, as in
      JavaScript: [try_catch] resumes the handler from them.
    - The declared types of the source are not checked when it runs. Where
      the source reads a name that nothing binds, or passes more arguments
      than a function has parameters, the embedding does what the runtime
      does: the read throws a [ReferenceError], and each parameter holds the
      argument at its position. *)

From Stdlib Require Import String Ascii ZArith List Bool Lia DecimalString.
Import ListNotations.
Local Open Scope Z_scope.

Set Implicit Arguments.

(** ** JavaScript strings *)

Definition jsstring := list Z.

Definition code_unit_of_ascii (a : ascii) : Z := Z.of_N (N_of_ascii a).

(** A string literal of the source. *)
Definition lit (s : string) : jsstring :=
  map code_unit_of_ascii (list_ascii_of_string s).

(** The line feed written [\n] in the source's template literals. *)
Definition nl : jsstring := [10].

(** [a === b] on strings. *)
Fixpoint str_eqb (a b : jsstring) : bool :=
  match a, b with
  | [], [] => true
  | x :: a', y :: b' => (x =? y) && str_eqb a' b'
  | _, _ => false
  end.

(** Truthiness of a string: every string but the empty one. *)
Definition truthy (s : jsstring) : bool :=
  match s with
  | [] => false
  | _ :: _ => true
  end.

(** Truthiness of [string | undefined]. *)
Definition truthy_opt (s : option jsstring) : bool :=
  match s with
  | Some s => truthy s
  | None => false
  end.

(** [x || d] where [x : string | undefined] and [d] is a string. *)
Definition js_or (x : option jsstring) (d : jsstring) : jsstring :=
  match x with
  | Some s => if truthy s then s else d
  | None => d
  end.

(** [x ?? d]; also the value of [x] where it is known to be present. *)
Definition nullish {A : Type} (x : option A) (d : A) : A :=
  match x with
  | Some a => a
  | None => d
  end.

(** [s.substring(0, n)] for a non-negative integer [n]. *)
Definition substring0 (n : nat) (s : jsstring) : jsstring := firstn n s.

(** The integers that a JavaScript number holds exactly. *)
Definition safe_integer (n : Z) : Prop :=
  - 9007199254740991 <= n <= 9007199254740991.

(** [String(n)] as a template literal interpolates it, for a safe integer
    [n]: its decimal digits. *)
Definition Number_toString (n : Z) : jsstring :=
  lit (NilZero.string_of_int (Z.to_int n)).

(** [String(x)] of a string that may be [undefined]. *)
Definition interpolate (x : option jsstring) : jsstring :=
  match x with
  | Some s => s
  | None => lit "undefined"
  end.

(** [xs.slice(start)]: a negative [start] counts from the end and is clamped
    at the beginning of the array; a positive one is clamped at its end. *)
Definition slice {A : Type} (start : Z) (xs : list A) : list A :=
  let len := Z.of_nat (length xs) in
  let k := if start <? 0 then Z.max (len + start) 0 else Z.min start len in
  skipn (Z.to_nat k) xs.

(** [xs.join(sep)] on an array of strings. *)
Fixpoint join (sep : jsstring) (xs : list jsstring) : jsstring :=
  match xs with
  | [] => []
  | [x] => x
  | x :: xs' => x ++ sep ++ join sep xs'
  end.

(** [part] occurs in [whole] as a contiguous run of code units. *)
Definition includes (part whole : jsstring) : Prop :=
  exists before after, whole = before ++ part ++ after.

(** [p] is an initial segment of [s]. *)
Definition starts_with (p s : jsstring) : Prop :=
  exists rest, s = p ++ rest.

(** ** The runtime's codecs

    [Buffer.from(s, "base64")] and [buf.toString("utf8")] belong to the
    Node.js runtime. They are modelled after RFC 4648 and RFC 3629 with the
    runtime's forgiving treatment of malformed input. *)

Definition in_range (lo hi c : Z) : bool := (lo <=? c) && (c <=? hi).

(** Value of a base64 digit. The runtime accepts the standard and the
    URL-safe alphabet. *)
Definition unbase64 (c : Z) : option Z :=
  if in_range 65 90 c then Some (c - 65)
  else if in_range 97 122 c then Some (c - 97 + 26)
  else if in_range 48 57 c then Some (c - 48 + 52)
  else if (c =? 43) || (c =? 45) then Some 62
  else if (c =? 47) || (c =? 95) then Some 63
  else None.

(** The digits of an encoded string: decoding stops at the first [=] and
    skips every other character outside the alphabet (line breaks, blanks). *)
Fixpoint base64_sextets (s : jsstring) : list Z :=
  match s with
  | [] => []
  | c :: s' =>
      if c =? 61 then []
      else match unbase64 c with
           | Some v => v :: base64_sextets s'
           | None => base64_sextets s'
           end
  end.

(** Four digits give three bytes; a final group of three digits gives two
    bytes, one of two digits gives one byte, a lone digit gives none. *)
Fixpoint base64_bytes (ds : list Z) : list Z :=
  match ds with
  | a :: b :: c :: d :: r =>
      (a * 4 + b / 16) :: (b mod 16 * 16 + c / 4) :: (c mod 4 * 64 + d)
      :: base64_bytes r
  | [a; b; c] => [a * 4 + b / 16; b mod 16 * 16 + c / 4]
  | [a; b] => [a * 4 + b / 16]
  | _ => []
  end.

(** [Buffer.from(s, "base64")]. *)
Definition Buffer_from_base64 (s : jsstring) : list Z :=
  base64_bytes (base64_sextets s).

(** U+FFFD, which replaces every malformed sequence. *)
Definition replacement_character : Z := 65533.

Definition is_continuation (b : Z) : bool := in_range 128 191 b.

(** Bounds of the second byte of a three- or four-byte sequence: they
    exclude overlong forms, surrogates and code points above U+10FFFF. *)
Definition second_lower (b0 : Z) : Z :=
  if b0 =? 224 then 160 else if b0 =? 240 then 144 else 128.

Definition second_upper (b0 : Z) : Z :=
  if b0 =? 237 then 159 else if b0 =? 244 then 143 else 191.

(** The Unicode scalar values of a byte sequence read as UTF-8. *)
Fixpoint utf8_scalars (bs : list Z) : list Z :=
  match bs with
  | [] => []
  | b0 :: r0 =>
      if b0 <? 128 then b0 :: utf8_scalars r0
      else if in_range 194 223 b0 then
        match r0 with
        | [] => [replacement_character]
        | b1 :: r1 =>
            if is_continuation b1
            then ((b0 - 192) * 64 + (b1 - 128)) :: utf8_scalars r1
            else replacement_character :: utf8_scalars r0
        end
      else if in_range 224 239 b0 then
        match r0 with
        | [] => [replacement_character]
        | b1 :: r1 =>
            if in_range (second_lower b0) (second_upper b0) b1 then
              match r1 with
              | [] => [replacement_character]
              | b2 :: r2 =>
                  if is_continuation b2
                  then ((b0 - 224) * 4096 + (b1 - 128) * 64 + (b2 - 128))
                       :: utf8_scalars r2
                  else replacement_character :: utf8_scalars r1
              end
            else replacement_character :: utf8_scalars r0
        end
      else if in_range 240 244 b0 then
        match r0 with
        | [] => [replacement_character]
        | b1 :: r1 =>
            if in_range (second_lower b0) (second_upper b0) b1 then
              match r1 with
              | [] => [replacement_character]
              | b2 :: r2 =>
                  if is_continuation b2 then
                    match r2 with
                    | [] => [replacement_character]
                    | b3 :: r3 =>
                        if is_continuation b3
                        then ((b0 - 240) * 262144 + (b1 - 128) * 4096
                              + (b2 - 128) * 64 + (b3 - 128))
                             :: utf8_scalars r3
                        else replacement_character :: utf8_scalars r2
                    end
                  else replacement_character :: utf8_scalars r1
              end
            else replacement_character :: utf8_scalars r0
        end
      else replacement_character :: utf8_scalars r0
  end.

(** The UTF-16 code units of a scalar value: itself in the basic plane, a
    surrogate pair above it. *)
Definition utf16_units (cp : Z) : jsstring :=
  if cp <? 65536 then [cp]
  else [55296 + (cp - 65536) / 1024; 56320 + (cp - 65536) mod 1024].

(** The JavaScript string of a text given by its scalar values. *)
Definition js_of_text (t : list Z) : jsstring := flat_map utf16_units t.

(** [buf.toString("utf8")]. *)
Definition toString_utf8 (bs : list Z) : jsstring :=
  js_of_text (utf8_scalars bs).

(** *** The platform's side of the transport encoding *)

(** A Unicode scalar value: a code point that is not a surrogate. *)
Definition is_scalar (cp : Z) : bool :=
  in_range 0 55295 cp || in_range 57344 1114111 cp.

(** UTF-8 (RFC 3629) of one scalar value. *)
Definition utf8_bytes (cp : Z) : list Z :=
  if cp <? 128 then [cp]
  else if cp <? 2048 then [192 + cp / 64; 128 + cp mod 64]
  else if cp <? 65536 then
    [224 + cp / 4096; 128 + cp / 64 mod 64; 128 + cp mod 64]
  else [240 + cp / 262144; 128 + cp / 4096 mod 64; 128 + cp / 64 mod 64;
        128 + cp mod 64].

Definition utf8_encode (t : list Z) : list Z := flat_map utf8_bytes t.

(** The digit of a value below 64 in the standard alphabet (RFC 4648). *)
Definition base64_digit (v : Z) : Z :=
  if v <? 26 then 65 + v
  else if v <? 52 then 97 + (v - 26)
  else if v <? 62 then 48 + (v - 52)
  else if v =? 62 then 43
  else 47.

(** Three bytes give four digits; the last group is padded with [=]. *)
Fixpoint base64_encode (bs : list Z) : jsstring :=
  match bs with
  | b0 :: b1 :: b2 :: r =>
      base64_digit (b0 / 4) :: base64_digit (b0 mod 4 * 16 + b1 / 16)
      :: base64_digit (b1 mod 16 * 4 + b2 / 64) :: base64_digit (b2 mod 64)
      :: base64_encode r
  | [b0; b1] =>
      [base64_digit (b0 / 4); base64_digit (b0 mod 4 * 16 + b1 / 16);
       base64_digit (b1 mod 16 * 4); 61]
  | [b0] => [base64_digit (b0 / 4); base64_digit (b0 mod 4 * 16); 61; 61]
  | [] => []
  end.

(** *** Iterating a string *)

Definition is_high_surrogate (c : Z) : bool := in_range 55296 56319 c.

Definition is_low_surrogate (c : Z) : bool := in_range 56320 57343 c.

(** What [for (const c of s)] yields: the code points of [s], a surrogate
    pair as one string of two code units. *)
Fixpoint code_points (s : jsstring) : list jsstring :=
  match s with
  | [] => []
  | h :: t =>
      match t with
      | l :: t' =>
          if is_high_surrogate h && is_low_surrogate l
          then [h; l] :: code_points t'
          else [h] :: code_points t
      | [] => [[h]]
      end
  end.

(** ** Values thrown, values returned *)

(** What a [catch] clause can receive: an instance of [Error] with its
    message, or any other value. *)
Inductive Thrown : Type :=
  | JsError (message : jsstring)
  | JsOther (value : jsstring).

Inductive outcome (A : Type) : Type :=
  | Ok (a : A)
  | Throw (e : Thrown).

Arguments Ok {A} a.
Arguments Throw {A} e.

Definition failure_of {A : Type} (r : outcome A) : option Thrown :=
  match r with
  | Ok _ => None
  | Throw e => Some e
  end.

(** ** Data of the hosting platform *)

(** [response.data] of [repos.getContent]: the raw text, a directory
    listing, or an object with a [type] and possibly a [content]. *)
Inductive ContentData : Type :=
  | DataString (text : jsstring)
  | DataArray (entries : list jsstring)
  | DataObject (type : jsstring) (content : option jsstring).

(** An entry of [pulls.listFiles]. *)
Record PullFile : Type := {
  pf_sha : jsstring;
  pf_filename : jsstring;
  pf_status : jsstring;
  pf_additions : Z;
  pf_deletions : Z;
  pf_changes : Z;
  pf_patch : option jsstring
}.

(** An element of [changedFilesData]. *)
Record ChangedFile : Type := {
  filename : jsstring;
  status : jsstring;
  additions : Z;
  deletions : Z;
  changes : Z;
  patch : option jsstring
}.

Record User : Type := { login : jsstring }.

(** An entry of [issues.listComments]; [user] and [body] may be absent. *)
Record Comment : Type := {
  user : option User;
  body : option jsstring
}.

(** The fields of [PRWebhookPayload] that the handlers read:
    [installation.id], [repository.owner.login], [repository.name],
    [pull_request?.number], [issue?.number] and [comment?.body]. *)
Record Payload : Type := {
  installation_id : Z;
  repository_owner_login : jsstring;
  repository_name : jsstring;
  pull_request_number : option Z;
  issue_number : option Z;
  comment_body : option jsstring
}.

(** ** Observable events *)

(** The calls that leave the module, with their arguments (the opaque
    client and pull-request objects apart). *)
Inductive ApiCall : Type :=
  | CallGetInstallationOctokit (id : Z)
  | CallListFiles (owner repo : jsstring) (pull_number per_page : Z)
  | CallGetContent (owner repo path : jsstring)
  | CallPullsGet (owner repo : jsstring) (pull_number : Z)
  | CallListComments (owner repo : jsstring) (issue : Z)
  | CallCreateComment (owner repo : jsstring) (issue : Z) (text : jsstring)
  | CallParseCode (content : jsstring)
  | CallGenerateCodeFeedback
      (files : list ChangedFile) (raw ast : jsstring)
  | CallGenerateFollowUpResponse
      (userComment context : jsstring)
      (files : list ChangedFile) (raw ast : jsstring).

(** A call with [None] when it returned and [Some e] when it threw [e];
    a line of [console.log]; a line of [console.error] with its optional
    second argument. *)
Inductive Event : Type :=
  | Called (c : ApiCall) (failure : option Thrown)
  | ConsoleLog (line : jsstring)
  | ConsoleError (line : jsstring) (arg : option Thrown).

(** ** The external capabilities *)

(** The platform client, the parser and the feedback generator, as
    state transformers of a world that the module cannot inspect. *)
Record Platform : Type := {
  World : Type;
  Octokit : Type;
  PullRequest : Type;
  Tree : Type;
  getInstallationOctokit : Z -> World -> World * outcome Octokit;
  pulls_listFiles :
    Octokit -> jsstring -> jsstring -> Z -> Z ->
    World -> World * outcome (list PullFile);
  repos_getContent :
    Octokit -> jsstring -> jsstring -> jsstring ->
    World -> World * outcome ContentData;
  pulls_get :
    Octokit -> jsstring -> jsstring -> Z ->
    World -> World * outcome PullRequest;
  issues_listComments :
    Octokit -> jsstring -> jsstring -> Z ->
    World -> World * outcome (list Comment);
  issues_createComment :
    Octokit -> jsstring -> jsstring -> Z -> jsstring ->
    World -> World * outcome unit;
  parseCode : jsstring -> World -> World * outcome Tree;
  rootNode_toString : Tree -> jsstring;
  generateCodeFeedback :
    list ChangedFile -> jsstring -> jsstring ->
    World -> World * outcome jsstring;
  generateFollowUpResponse :
    PullRequest -> jsstring -> jsstring ->
    list ChangedFile -> jsstring -> jsstring ->
    World -> World * outcome jsstring
}.

(** ** The monad of the source's functions *)

Section Program.

Variable P : Platform.

(** The state reached by a run, what it emitted, and how it ended. *)
Record Run (L A : Type) : Type := mkRun {
  locals : L;
  world : World P;
  events : list Event;
  result : outcome A
}.

Definition M (L A : Type) : Type := L -> World P -> Run L A.

Definition ret {L A : Type} (a : A) : M L A :=
  fun l w => mkRun l w [] (Ok a).

Definition throw {L A : Type} (e : Thrown) : M L A :=
  fun l w => mkRun l w [] (Throw e).

Definition bind {L A B : Type} (m : M L A) (k : A -> M L B) : M L B :=
  fun l w =>
    let r := m l w in
    match result r with
    | Ok a =>
        let r' := k a (locals r) (world r) in
        mkRun (locals r') (world r') (events r ++ events r') (result r')
    | Throw e => mkRun (locals r) (world r) (events r) (Throw e)
    end.

(** [try { body } catch (error) { handler }]: the handler starts from the
    locals and the world that the body had reached when it threw. *)
Definition try_catch {L A : Type} (body : M L A) (handler : Thrown -> M L A)
  : M L A :=
  fun l w =>
    let r := body l w in
    match result r with
    | Ok a => r
    | Throw e =>
        let r' := handler e (locals r) (world r) in
        mkRun (locals r') (world r') (events r ++ events r') (result r')
    end.

(** An awaited call of an external capability. *)
Definition invoke {L A : Type} (c : ApiCall)
  (oracle : World P -> World P * outcome A) : M L A :=
  fun l w =>
    let wr := oracle w in
    mkRun l (fst wr) [Called c (failure_of (snd wr))] (snd wr).

Definition console_log {L : Type} (line : jsstring) : M L unit :=
  fun l w => mkRun l w [ConsoleLog line] (Ok tt).

Definition console_error {L : Type} (line : jsstring) (arg : option Thrown)
  : M L unit :=
  fun l w => mkRun l w [ConsoleError line arg] (Ok tt).

(** Reading and assigning the function's [let] variables. *)
Definition get {L : Type} : M L L :=
  fun l w => mkRun l w [] (Ok l).

Definition modify {L : Type} (f : L -> L) : M L unit :=
  fun l w => mkRun (f l) w [] (Ok tt).

(** A function body with its own variables, initialised by [init] and
    dropped on return. *)
Definition with_locals {L L' A : Type} (init : L') (m : M L' A) : M L A :=
  fun l w =>
    let r := m init w in
    mkRun l (world r) (events r) (result r).

Declare Scope js_scope.
Delimit Scope js_scope with js.

Notation "x <- m ;; k" := (bind m (fun x => k))
  (at level 100, m at next level, right associativity) : js_scope.
Notation "m ;; k" := (bind m (fun _ => k))
  (at level 100, right associativity) : js_scope.

Local Open Scope js_scope.

(** [for (const x of xs) { body }]. *)
Fixpoint for_of {L X : Type} (xs : list X) (body : X -> M L unit)
  : M L unit :=
  match xs with
  | [] => ret tt
  | x :: xs' => body x ;; for_of xs' body
  end.

(** ** Content resolver *)

(** The two errors of [fetchFullFileContent]; the specification calls them
    [NotAFile] and [UnreadableContent]. *)
Definition NotAFile (path : jsstring) : Thrown :=
  JsError (lit "Expected a file but received a directory for path: " ++ path).

Definition UnreadableContent (path : jsstring) : Thrown :=
  JsError (lit "Unable to fetch file content as string for path: " ++ path).

Definition fetchFullFileContent {L : Type}
  (octokit : Octokit P) (owner repo path : jsstring) : M L jsstring :=
  data <- invoke (CallGetContent owner repo path)
            (repos_getContent P octokit owner repo path) ;;
  match data with
  | DataString text => ret text
  | DataArray _ => throw (NotAFile path)
  | DataObject type content =>
      if str_eqb type (lit "file") && truthy_opt content
      then ret (toString_utf8 (Buffer_from_base64 (nullish content [])))
      else throw (UnreadableContent path)
  end.

(** ** Changed files *)

Definition fetchChangedFilesData {L : Type}
  (octokit : Octokit P) (owner repo : jsstring) (pull_number : Z)
  : M L (list ChangedFile) :=
  files <- invoke (CallListFiles owner repo pull_number 100)
             (pulls_listFiles P octokit owner repo pull_number 100) ;;
  ret (map (fun file =>
              {| filename := pf_filename file;
                 status := pf_status file;
                 additions := pf_additions file;
                 deletions := pf_deletions file;
                 changes := pf_changes file;
                 patch := pf_patch file |}) files).

(** ** Structural aggregator *)

(** The two accumulators of [aggregateASTReport]. *)
Record Aggregate : Type := {
  rawCode : jsstring;
  astReport : jsstring
}.

(** The filename-labelled fenced block that both accumulators receive. *)
Definition labeled_section (name text : jsstring) : jsstring :=
  lit "### " ++ name ++ nl ++ lit "```" ++ nl ++ text ++ nl ++ lit "```"
  ++ nl ++ nl.

Definition processing_error_line (name : jsstring) : jsstring :=
  lit "Error processing file " ++ name ++ lit ":".

(** What a parameter of [aggregateASTReport] can hold when it runs: the
    callers of the module pass strings, the client and the array of file
    records. *)
Inductive JsValue : Type :=
  | VUndefined
  | VString (s : jsstring)
  | VClient (octokit : Octokit P)
  | VFiles (files : list ChangedFile).

(** The parameter at position [i]: [undefined] beyond the arguments given;
    arguments beyond the parameters are bound to nothing. *)
Definition parameter (i : nat) (arguments : list JsValue) : JsValue :=
  nth i arguments VUndefined.

(** [String(v)]. *)
Definition text_of (v : JsValue) : jsstring :=
  match v with
  | VUndefined => lit "undefined"
  | VString s => s
  | VClient _ => lit "[object Object]"
  | VFiles files =>
      join (lit ",") (map (fun _ => lit "[object Object]") files)
  end.

(** What [for ... of] yields: an element of the array of file records, or a
    code point of a string. *)
Inductive Item : Type :=
  | ItemFile (file : ChangedFile)
  | ItemCharacter (c : jsstring).

(** [file.filename]; a string has no such property. *)
Definition item_filename (item : Item) : option jsstring :=
  match item with
  | ItemFile file => Some (filename file)
  | ItemCharacter _ => None
  end.

(** The values that [for (const file of v)] goes through; a value that is
    neither an array nor a string is not iterable, and the loop throws a
    [TypeError] before its first turn. *)
Definition iterate {L : Type} (name : jsstring) (v : JsValue)
  : M L (list Item) :=
  match v with
  | VFiles files => ret (map ItemFile files)
  | VString s => ret (map ItemCharacter (code_points s))
  | VUndefined => throw (JsError (name ++ lit " is not iterable"))
  | VClient _ => throw (JsError (name ++ lit " is not iterable"))
  end.

(** Reading a name that no declaration binds throws a [ReferenceError],
    which is an [Error]. *)
Definition unbound_identifier {L A : Type} (name : jsstring) : M L A :=
  throw (JsError (name ++ lit " is not defined")).

(** The statements of the [try] block, lines 119 to 130, for a client
    [octokit]: the content is resolved and appended to [rawCode], then
    parsed and the rendering of the tree appended to [astReport]. *)
Definition process_file (octokit : Octokit P) (owner repo : JsValue)
  (file : Item) : M Aggregate unit :=
  content <- fetchFullFileContent octokit (text_of owner) (text_of repo)
               (interpolate (item_filename file)) ;;
  modify (fun acc =>
            {| rawCode := rawCode acc
                          ++ labeled_section
                               (interpolate (item_filename file)) content;
               astReport := astReport acc |}) ;;
  tree <- invoke (CallParseCode content) (parseCode P content) ;;
  let astString := rootNode_toString P tree in
  modify (fun acc =>
            {| rawCode := rawCode acc;
               astReport := astReport acc
                            ++ labeled_section
                                 (interpolate (item_filename file))
                                 astString |}).

(** The body of the loop: one [try] block around the whole treatment of a
    file. The signature of [aggregateASTReport] has its [octokit] parameter
    commented out and the module binds no such name, so the first thing the
    block evaluates, the argument [octokit] of the call on lines 119 to 124,
    throws, and the statements of the block are not reached. *)
Definition aggregate_file (owner repo : JsValue) (file : Item)
  : M Aggregate unit :=
  try_catch
    (octokit <- unbound_identifier (lit "octokit") ;;
     process_file octokit owner repo file)
    (fun error =>
       console_error
         (processing_error_line (interpolate (item_filename file)))
         (Some error)).

(** The function has three parameters, [owner], [repo] and
    [changedFilesData]; it is given here the list of the arguments of a
    call, since both handlers call it with four. *)
Definition aggregateASTReport {L : Type} (arguments : list JsValue)
  : M L Aggregate :=
  let owner := parameter 0 arguments in
  let repo := parameter 1 arguments in
  let changedFilesData := parameter 2 arguments in
  with_locals {| rawCode := []; astReport := [] |}
    (items <- iterate (lit "changedFilesData") changedFilesData ;;
     for_of items (aggregate_file owner repo) ;;
     get).

(** ** Comment publisher *)

Definition postComment {L : Type}
  (octokit : Octokit P) (owner repo : jsstring) (issue : Z)
  (text : jsstring) : M L unit :=
  invoke (CallCreateComment owner repo issue text)
    (issues_createComment P octokit owner repo issue text).

(** ** Conversation context *)

Definition bot_login : jsstring := lit "pga-github-app".

(** [comment.user?.login]. *)
Definition user_login (comment : Comment) : option jsstring :=
  option_map login (user comment).

(** The constants of the arrow function mapped over the comments. *)
Definition isBot (comment : Comment) : bool :=
  match user_login comment with
  | Some l => str_eqb l bot_login
  | None => false
  end.

Definition prefix (comment : Comment) : jsstring :=
  if isBot comment then lit "[BOT RESPONSE]" else lit "[USER]".

Definition username (comment : Comment) : jsstring :=
  js_or (user_login comment) (lit "unknown").

Definition rendered_body (comment : Comment) : jsstring :=
  js_or (option_map (substring0 500) (body comment)) [].

(** [body?.length && body?.length > 500 ? "..." : ""]: the condition is
    [undefined] without a body, [0] for an empty one, else the comparison. *)
Definition ellipsis (comment : Comment) : jsstring :=
  let condition :=
    match option_map (@List.length Z) (body comment) with
    | None => false
    | Some n => if Nat.eqb n 0 then false else Nat.ltb 500 n
    end in
  if condition then lit "..." else [].

Definition format_comment (comment : Comment) : jsstring :=
  prefix comment ++ lit " " ++ username comment ++ lit ": "
  ++ rendered_body comment ++ ellipsis comment.

(** The constant [previousComments] of the follow-up handler. *)
Definition previousComments (comments : list Comment) : jsstring :=
  join (nl ++ nl) (map format_comment (slice (-30) comments)).

(** ** Event handlers *)

(** The [catch] clause shared by both handlers. *)
Definition log_and_rethrow {A : Type} (error : Thrown) : M unit A :=
  match error with
  | JsError message =>
      console_error (lit "Error handling PR event: " ++ message) None
  | JsOther _ => ret tt
  end ;;
  throw error.

Definition handlePullRequestEvent (payload : Payload) : M unit unit :=
  octokit <- invoke (CallGetInstallationOctokit (installation_id payload))
               (getInstallationOctokit P (installation_id payload)) ;;
  let owner := repository_owner_login payload in
  let repo := repository_name payload in
  let pull_number := nullish (pull_request_number payload) 0 in
  try_catch
    (changedFilesData <- fetchChangedFilesData octokit owner repo pull_number ;;
     report <- aggregateASTReport
                 [VClient octokit; VString owner; VString repo;
                  VFiles changedFilesData] ;;
     feedback <- invoke
                   (CallGenerateCodeFeedback changedFilesData
                      (rawCode report) (astReport report))
                   (generateCodeFeedback P changedFilesData
                      (rawCode report) (astReport report)) ;;
     postComment octokit owner repo pull_number feedback ;;
     console_log (lit "Posted feedback comment on PR #"
                  ++ Number_toString pull_number))
    log_and_rethrow.

Definition handlePullRequestCommentEvent (payload : Payload) : M unit unit :=
  console_log (lit "Handling a pull request comment event.") ;;
  octokit <- invoke (CallGetInstallationOctokit (installation_id payload))
               (getInstallationOctokit P (installation_id payload)) ;;
  let owner := repository_owner_login payload in
  let repo := repository_name payload in
  let pull_number := nullish (issue_number payload) 0 in
  let userComment := nullish (comment_body payload) [] in
  try_catch
    (pullRequest <- invoke (CallPullsGet owner repo pull_number)
                      (pulls_get P octokit owner repo pull_number) ;;
     comments <- invoke (CallListComments owner repo pull_number)
                   (issues_listComments P octokit owner repo pull_number) ;;
     changedFilesData <- fetchChangedFilesData octokit owner repo pull_number ;;
     report <- aggregateASTReport
                 [VClient octokit; VString owner; VString repo;
                  VFiles changedFilesData] ;;
     let context := previousComments comments in
     followUpResponse <-
       invoke
         (CallGenerateFollowUpResponse userComment context changedFilesData
            (rawCode report) (astReport report))
         (generateFollowUpResponse P pullRequest userComment context
            changedFilesData (rawCode report) (astReport report)) ;;
     postComment octokit owner repo pull_number followUpResponse ;;
     console_log (lit "Posted follow up comment on PR #"
                  ++ Number_toString pull_number))
    log_and_rethrow.

End Program.

Arguments mkRun {P L A} locals world events result.
Arguments bind {P L A B} m k.
Arguments try_catch {P L A} body handler.
Arguments invoke {P L A} c oracle.
Arguments modify {P L} f.
Arguments with_locals {P L L' A} init m.
Arguments for_of {P L X} xs body.
Arguments log_and_rethrow {P A} error.
Arguments ret {P L A} a.
Arguments throw {P L A} e.
Arguments get {P L}.
Arguments console_log {P L} line.
Arguments console_error {P L} line arg.
Arguments fetchFullFileContent {P L} octokit owner repo path.
Arguments fetchChangedFilesData {P L} octokit owner repo pull_number.
Arguments VUndefined {P}.
Arguments VString {P} s.
Arguments VClient {P} octokit.
Arguments VFiles {P} files.
Arguments parameter {P} i arguments.
Arguments text_of {P} v.
Arguments iterate {P L} name v.
Arguments unbound_identifier {P L A} name.
Arguments process_file {P} octokit owner repo file.
Arguments aggregate_file {P} owner repo file.
Arguments aggregateASTReport {P L} arguments.
Arguments postComment {P L} octokit owner repo issue text.

(** ** Reading the event list *)

(** The calls and lines that the aggregator confines to one file. *)
Definition per_file_event (ev : Event) : bool :=
  match ev with
  | Called (CallGetContent _ _ _) _ => true
  | Called (CallParseCode _) _ => true
  | ConsoleError _ (Some _) => true
  | _ => false
  end.

Definition is_generator_call (c : ApiCall) : bool :=
  match c with
  | CallGenerateCodeFeedback _ _ _ => true
  | CallGenerateFollowUpResponse _ _ _ _ _ => true
  | _ => false
  end.

Definition is_createComment (ev : Event) : bool :=
  match ev with
  | Called (CallCreateComment _ _ _ _) _ => true
  | _ => false
  end.

(** The calls of a handler itself, in order, each with how it ended. *)
Definition handler_calls (evs : list Event)
  : list (ApiCall * option Thrown) :=
  flat_map (fun ev =>
              match ev with
              | Called c f => if per_file_event ev then [] else [(c, f)]
              | _ => []
              end) evs.

(** The lines written by the [catch] clause of a handler. *)
Definition handler_error_lines (evs : list Event) : list jsstring :=
  flat_map (fun ev =>
              match ev with
              | ConsoleError line None => [line]
              | _ => []
              end) evs.

Definition handler_error_line (message : jsstring) : jsstring :=
  lit "Error handling PR event: " ++ message.

(** Which operation a call is, whatever its arguments. *)
Inductive Operation : Type :=
  | OpGetInstallationOctokit
  | OpListFiles
  | OpGetContent
  | OpPullsGet
  | OpListComments
  | OpCreateComment
  | OpParseCode
  | OpGenerateCodeFeedback
  | OpGenerateFollowUpResponse.

Definition operation (c : ApiCall) : Operation :=
  match c with
  | CallGetInstallationOctokit _ => OpGetInstallationOctokit
  | CallListFiles _ _ _ _ => OpListFiles
  | CallGetContent _ _ _ => OpGetContent
  | CallPullsGet _ _ _ => OpPullsGet
  | CallListComments _ _ _ => OpListComments
  | CallCreateComment _ _ _ _ => OpCreateComment
  | CallParseCode _ => OpParseCode
  | CallGenerateCodeFeedback _ _ _ => OpGenerateCodeFeedback
  | CallGenerateFollowUpResponse _ _ _ _ _ => OpGenerateFollowUpResponse
  end.

(** The order in which each handler reaches its own operations. *)
Definition new_pr_plan : list Operation :=
  [OpGetInstallationOctokit; OpListFiles; OpGenerateCodeFeedback;
   OpCreateComment].

Definition follow_up_plan : list Operation :=
  [OpGetInstallationOctokit; OpPullsGet; OpListComments; OpListFiles;
   OpGenerateFollowUpResponse; OpCreateComment].

(** [l] is an initial segment of [plan]. *)
Definition initial_segment {A : Type} (l plan : list A) : Prop :=
  exists rest, plan = l ++ rest.

(** ** Shapes of a platform response *)

Definition directory_shaped (d : ContentData) : Prop :=
  match d with
  | DataArray _ => True
  | _ => False
  end.

Definition plain_text (d : ContentData) : Prop :=
  match d with
  | DataString _ => True
  | _ => False
  end.

(** An object of type ["file"] that has a [content]. *)
Definition file_with_encoded_body (d : ContentData) : Prop :=
  match d with
  | DataObject type (Some _) => type = lit "file"
  | _ => False
  end.

(** The object that the platform returns for a file of zero bytes. *)
Definition zero_byte_file : ContentData := DataObject (lit "file") (Some []).

(** The object that carries a text in the transport encoding. *)
Definition encoded_file (t : list Z) : ContentData :=
  DataObject (lit "file") (Some (base64_encode (utf8_encode t))).

(** ** A scripted platform

    Concrete capabilities for running the handlers: every operation answers
    from a fixed script, and the world counts the calls made. *)

Record Script : Type := {
  on_getInstallationOctokit : outcome unit;
  on_listFiles : outcome (list PullFile);
  on_getContent : jsstring -> outcome ContentData;
  on_parseCode : jsstring -> outcome jsstring;
  on_pullsGet : outcome unit;
  on_listComments : outcome (list Comment);
  on_generate : outcome jsstring;
  on_createComment : outcome unit
}.

Definition scripted (s : Script) : Platform :=
  {| World := nat;
     Octokit := unit;
     PullRequest := unit;
     Tree := jsstring;
     getInstallationOctokit := fun _ w => (S w, on_getInstallationOctokit s);
     pulls_listFiles := fun _ _ _ _ _ w => (S w, on_listFiles s);
     repos_getContent := fun _ _ _ path w => (S w, on_getContent s path);
     pulls_get := fun _ _ _ _ w => (S w, on_pullsGet s);
     issues_listComments := fun _ _ _ _ w => (S w, on_listComments s);
     issues_createComment := fun _ _ _ _ _ w => (S w, on_createComment s);
     parseCode := fun content w => (S w, on_parseCode s content);
     rootNode_toString := fun tree => tree;
     generateCodeFeedback := fun _ _ _ w => (S w, on_generate s);
     generateFollowUpResponse := fun _ _ _ _ _ _ w => (S w, on_generate s) |}.

Definition pull_file (name : jsstring) : PullFile :=
  {| pf_sha := lit "0a1b2c";
     pf_filename := name;
     pf_status := lit "modified";
     pf_additions := 1;
     pf_deletions := 0;
     pf_changes := 1;
     pf_patch := None |}.

Definition changed_file (name : jsstring) : ChangedFile :=
  {| filename := name;
     status := lit "modified";
     additions := 1;
     deletions := 0;
     changes := 1;
     patch := None |}.

(** A repository with two sources, a directory, a file of zero bytes and a
    file stored in the transport encoding; the parser rejects [b.ts]. *)
Definition sample_content (path : jsstring) : outcome ContentData :=
  if str_eqb path (lit "a.ts") then Ok (DataString (lit "let a"))
  else if str_eqb path (lit "b.ts") then Ok (DataString (lit "%%"))
  else if str_eqb path (lit "lib") then Ok (DataArray [lit "lib/x.ts"])
  else if str_eqb path (lit "empty.ts") then Ok zero_byte_file
  else if str_eqb path (lit "hi.txt") then Ok (encoded_file [104; 233; 8364])
  else if str_eqb path (lit "link") then Ok (DataObject (lit "symlink") None)
  else Throw (JsError (lit "Not Found")).

Definition sample_parse (content : jsstring) : outcome jsstring :=
  if str_eqb content (lit "%%") then Throw (JsError (lit "parse failed"))
  else Ok (lit "(program)").

Definition sample_script : Script :=
  {| on_getInstallationOctokit := Ok tt;
     on_listFiles :=
       Ok [pull_file (lit "a.ts"); pull_file (lit "lib");
           pull_file (lit "b.ts")];
     on_getContent := sample_content;
     on_parseCode := sample_parse;
     on_pullsGet := Ok tt;
     on_listComments := Ok [];
     on_generate := Ok (lit "LGTM");
     on_createComment := Ok tt |}.

(** The same platform with a failing generator, and with a failing
    installation lookup. *)
Definition generator_down : Script :=
  {| on_getInstallationOctokit := Ok tt;
     on_listFiles := on_listFiles sample_script;
     on_getContent := sample_content;
     on_parseCode := sample_parse;
     on_pullsGet := Ok tt;
     on_listComments := Ok [];
     on_generate := Throw (JsError (lit "model overloaded"));
     on_createComment := Ok tt |}.

Definition installation_down : Script :=
  {| on_getInstallationOctokit := Throw (JsError (lit "Bad credentials"));
     on_listFiles := on_listFiles sample_script;
     on_getContent := sample_content;
     on_parseCode := sample_parse;
     on_pullsGet := Ok tt;
     on_listComments := Ok [];
     on_generate := Ok (lit "LGTM");
     on_createComment := Ok tt |}.

Definition sample_payload : Payload :=
  {| installation_id := 7;
     repository_owner_login := lit "forbeskat";
     repository_name := lit "PGA-tester";
     pull_request_number := Some 12;
     issue_number := Some 12;
     comment_body := Some (lit "why?") |}.

Definition sample_files : list ChangedFile :=
  [changed_file (lit "a.ts"); changed_file (lit "lib");
   changed_file (lit "b.ts")].

(** What the resolver makes of a response once the platform has answered. *)
Definition resolution (path : jsstring) (d : ContentData) : outcome jsstring :=
  match d with
  | DataString text => Ok text
  | DataArray _ => Throw (NotAFile path)
  | DataObject type content =>
      if str_eqb type (lit "file") && truthy_opt content
      then Ok (toString_utf8 (Buffer_from_base64 (nullish content [])))
      else Throw (UnreadableContent path)
  end.

(** ** The failure policy of the handlers *)

(** The line of the [catch] clause for a thrown value, if it writes one. *)
Definition caught_lines (e : Thrown) : list jsstring :=
  match e with
  | JsError message => [handler_error_line message]
  | JsOther _ => []
  end.

Definition operations (calls : list (ApiCall * option Thrown))
  : list Operation :=
  map (fun cf => operation (fst cf)) calls.

Definition returned (cf : ApiCall * option Thrown) : Prop := snd cf = None.

(** The lines that the [catch] clause writes when call [c] throws [e]: the
    installation lookup precedes the [try] block, and only instances of
    [Error] are reported. *)
Definition expected_lines (c : ApiCall) (e : Thrown) : list jsstring :=
  match operation c with
  | OpGetInstallationOctokit => []
  | _ => caught_lines e
  end.

(** A run that follows [plan]: either every operation of the plan was called
    once, in order, and returned, or the calls stop at the first one that
    threw, whose value is the result. *)
Inductive follows_plan (plan : list Operation)
  : list (ApiCall * option Thrown) -> list jsstring -> outcome unit -> Prop :=
  | plan_completed (calls : list (ApiCall * option Thrown)) :
      operations calls = plan ->
      Forall returned calls ->
      follows_plan plan calls [] (Ok tt)
  | plan_failed (done : list (ApiCall * option Thrown))
      (c : ApiCall) (e : Thrown) (rest : list Operation) :
      Forall returned done ->
      plan = operations done ++ operation c :: rest ->
      follows_plan plan (done ++ [(c, Some e)]) (expected_lines c e) (Throw e).

(** What the policy promises of the events [evs] and the result [res] of a
    handler. *)
Record failure_policy (plan : list Operation)
  (evs : list Event) (res : outcome unit) : Prop := {
  generator_failure_stops :
    forall c e,
      In (Called c (Some e)) evs -> is_generator_call c = true ->
      res = Throw e /\ existsb is_createComment evs = false;
  thrown_by_a_call :
    forall e,
      res = Throw e <-> exists c, In (c, Some e) (handler_calls evs);
  logged_when_caught :
    forall c e,
      In (c, Some e) (handler_calls evs) ->
      handler_error_lines evs = expected_lines c e;
  nothing_repeated :
    initial_segment (operations (handler_calls evs)) plan;
  nothing_after_failure :
    forall before c e after,
      handler_calls evs = before ++ (c, Some e) :: after -> after = [];
  nothing_posted_on_failure :
    forall e,
      res = Throw e ->
      forall owner repo issue text,
        ~ In (Called (CallCreateComment owner repo issue text) None) evs
}.

Section Obligations.

Variable P : Platform.

(** A program that calls the operations [ops], once each and in order, as
    long as they return, and that ends with the value thrown by the first
    one that does not. With [logged] the thrown value has been through the
    [catch] clause; without it nothing was written. *)
Definition obeys {L A : Type} (logged : bool) (ops : list Operation)
  (m : M P L A) : Prop :=
  forall l w,
    let r := m l w in
    match result r with
    | Ok _ =>
        operations (handler_calls (events r)) = ops /\
        Forall returned (handler_calls (events r)) /\
        handler_error_lines (events r) = []
    | Throw e =>
        exists done c rest,
          handler_calls (events r) = done ++ [(c, Some e)] /\
          Forall returned done /\
          ops = operations done ++ operation c :: rest /\
          handler_error_lines (events r)
          = if logged then caught_lines e else []
    end.

(** A handler whose every run follows [plan]. *)
Definition handler_follows (plan : list Operation) (m : M P unit unit)
  : Prop :=
  forall l w,
    follows_plan plan (handler_calls (events (m l w)))
      (handler_error_lines (events (m l w))) (result (m l w)).

End Obligations.

(** The policy as the specification words it, for what escapes a handler:
    the exception that ends the handling has been written to the console. *)
Definition exceptions_as_specified (evs : list Event) (res : outcome unit)
  : Prop :=
  forall e, res = Throw e -> exists line arg, In (ConsoleError line arg) evs.

(** In a plan, posting the comment comes last. *)
Definition posts_last (plan : list Operation) : Prop :=
  forall pre op post, plan = pre ++ op :: post -> ~ In OpCreateComment pre.

(** The platform whose feedback generator throws a value that is not an
    [Error]. *)
Definition generator_throws_text : Script :=
  {| on_getInstallationOctokit := Ok tt;
     on_listFiles := on_listFiles sample_script;
     on_getContent := sample_content;
     on_parseCode := sample_parse;
     on_pullsGet := Ok tt;
     on_listComments := Ok [];
     on_generate := Throw (JsOther (lit "rate limited"));
     on_createComment := Ok tt |}.

(** ** Ranges of the transport encoding *)

Definition is_byte (b : Z) : Prop := 0 <= b < 256.

(** A text: every element is a Unicode scalar value. *)
Definition is_text (t : list Z) : Prop :=
  Forall (fun cp => is_scalar cp = true) t.

(** A thread of numbered comments, for the scenarios. *)
Definition numbered_comment (n : nat) : Comment :=
  {| user := Some {| login := lit "octocat" |};
     body := Some (Number_toString (Z.of_nat n)) |}.

(** ** Further readings of a run *)

(** The record that [fetchChangedFilesData] keeps of a listed file. *)
Definition changed_file_of (file : PullFile) : ChangedFile :=
  {| filename := pf_filename file;
     status := pf_status file;
     additions := pf_additions file;
     deletions := pf_deletions file;
     changes := pf_changes file;
     patch := pf_patch file |}.

(** The [repos.getContent] requests of a run, in order. *)
Definition content_requests (evs : list Event)
  : list (jsstring * jsstring * jsstring) :=
  flat_map (fun ev =>
              match ev with
              | Called (CallGetContent owner repo path) _ =>
                  [(owner, repo, path)]
              | _ => []
              end) evs.

(** The texts handed to the parser, in order. *)
Definition parse_inputs (evs : list Event) : list jsstring :=
  flat_map (fun ev =>
              match ev with
              | Called (CallParseCode content) _ => [content]
              | _ => []
              end) evs.

(** What a run wrote to the console, in order. *)
Definition console_events (evs : list Event) : list Event :=
  filter (fun ev =>
            match ev with
            | Called _ _ => false
            | _ => true
            end) evs.

(** A call as the handlers make them: addressed to the repository
    [owner]/[repo] and, where it names one, to the pull request or issue
    [number]; the listing asks for pages of 100; the generators receive
    empty aggregated strings; no content is requested and the parser is not
    called. *)
Definition addressed (owner repo : jsstring) (number : Z) (c : ApiCall)
  : Prop :=
  match c with
  | CallGetInstallationOctokit _ => True
  | CallListFiles o r n per_page =>
      o = owner /\ r = repo /\ n = number /\ per_page = 100
  | CallGetContent _ _ _ => False
  | CallPullsGet o r n => o = owner /\ r = repo /\ n = number
  | CallListComments o r n => o = owner /\ r = repo /\ n = number
  | CallCreateComment o r n _ => o = owner /\ r = repo /\ n = number
  | CallParseCode _ => False
  | CallGenerateCodeFeedback _ raw ast => raw = [] /\ ast = []
  | CallGenerateFollowUpResponse _ _ _ raw ast => raw = [] /\ ast = []
  end.

Definition event_addressed (owner repo : jsstring) (number : Z) (ev : Event)
  : Prop :=
  match ev with
  | Called c _ => addressed owner repo number c
  | _ => True
  end.

(** An encoded string without the line feeds that break it into lines. *)
Definition without_line_feeds (s : jsstring) : jsstring :=
  filter (fun c => negb (c =? 10)) s.

Section Emission.

Variable P : Platform.

(** A program all of whose events satisfy [Q], whatever the world. *)
Definition emits {L A : Type} (Q : Event -> Prop) (m : M P L A) : Prop :=
  forall l w, Forall Q (events (m l w)).

End Emission.

(** A platform that answers every content request with the file object of
    the text "h", "e acute", "euro sign", its encoding broken into two
    lines. *)
Definition wrapped_script : Script :=
  {| on_getInstallationOctokit := Ok tt;
     on_listFiles := Ok [pull_file (lit "hi.txt")];
     on_getContent :=
       fun _ => Ok (DataObject (lit "file")
                      (Some (lit "aMOp" ++ nl ++ lit "4oKs" ++ nl)));
     on_parseCode := sample_parse;
     on_pullsGet := Ok tt;
     on_listComments :=
       Ok [ {| user := Some {| login := lit "octocat" |};
               body := Some (lit "first") |};
            {| user := Some {| login := bot_login |};
               body := Some (lit "second") |} ];
     on_generate := Ok (lit "LGTM");
     on_createComment := Ok tt |}.

(** The operation that posts the comment. *)
Definition is_posting (op : Operation) : bool :=
  match op with
  | OpCreateComment => true
  | _ => false
  end.

(** A [createComment] call that returned. *)
Definition comment_posted (evs : list Event) : Prop :=
  exists owner repo issue text,
    In (Called (CallCreateComment owner repo issue text) None) evs.

(** The error that every turn of the aggregator's loop meets. *)
Definition octokit_is_not_defined : Thrown :=
  JsError (lit "octokit is not defined").

(** The console lines of a loop in which every turn meets that error, one
    per item. *)
Definition failure_lines (items : list Item) : list Event :=
  map (fun item =>
         ConsoleError
           (processing_error_line (interpolate (item_filename item)))
           (Some octokit_is_not_defined)) items.

(** The report with nothing in it. *)
Definition empty_report : Aggregate := {| rawCode := []; astReport := [] |}.

(** * Facts *)

(** ** Strings *)

Lemma str_eqb_eq (a b : jsstring) : str_eqb a b = true <-> a = b.
Proof.
  revert b; induction a as [|x a IH]; intros [|y b]; simpl;
    try (split; [discriminate | discriminate]); try tauto.
  rewrite andb_true_iff, Z.eqb_eq, IH.
  split; [intros [-> ->]; reflexivity | intros E; inversion E; auto].
Qed.

Lemma str_eqb_refl (a : jsstring) : str_eqb a a = true.
Proof. apply str_eqb_eq; reflexivity. Qed.

Lemma str_eqb_neq (a b : jsstring) : str_eqb a b = false <-> a <> b.
Proof.
  rewrite <- str_eqb_eq; destruct (str_eqb a b); split; congruence.
Qed.

Lemma slice_last (A : Type) (n : nat) (xs : list A) :
  slice (- Z.of_nat (S n)) xs = skipn (length xs - S n) xs.
Proof.
  unfold slice.
  replace (- Z.of_nat (S n) <? 0) with true by (symmetry; apply Z.ltb_lt; lia).
  f_equal; lia.
Qed.

(** ** Conversation context *)

(** The window kept by [slice(-30)]: the comments are some older entries
    followed by the window, which holds [min n 30] of them. *)
Lemma window_of_thirty (comments : list Comment) :
  exists older,
    comments = older ++ slice (-30) comments /\
    length (slice (-30) comments) = Nat.min (length comments) 30.
Proof.
  change (-30) with (- Z.of_nat 30); rewrite slice_last.
  exists (firstn (length comments - 30) comments); split.
  - symmetry; apply firstn_skipn.
  - rewrite length_skipn; lia.
Qed.

Lemma rendered_body_is_prefix (c : Comment) :
  rendered_body c = firstn 500 (nullish (body c) []).
Proof.
  unfold rendered_body, substring0.
  destruct (body c) as [b|]; unfold option_map, js_or, nullish.
  - destruct (firstn 500 b); reflexivity.
  - symmetry; apply firstn_nil.
Qed.

Lemma ellipsis_cases (c : Comment) :
  (ellipsis c = lit "..." /\ (500 < length (nullish (body c) []))%nat) \/
  (ellipsis c = [] /\ (length (nullish (body c) []) <= 500)%nat).
Proof.
  unfold ellipsis, nullish.
  destruct (body c) as [b|]; unfold option_map;
    [|right; split; [reflexivity | simpl; lia]].
  destruct (Nat.eqb_spec (length b) 0) as [E|E].
  - right; split; [reflexivity | lia].
  - destruct (Nat.ltb_spec 500 (length b)); [left | right]; auto.
Qed.

(** C5. In every transcript entry the rendered body is the first 500 code
    units of the original body, hence at most 500 long, and it is followed by
    the marker ["..."] if and only if the original body is longer than 500;
    otherwise nothing follows it. An absent body counts as the empty one. *)
Theorem body_capped_and_marked (c : Comment) :
  let original := nullish (body c) [] in
  (exists label, format_comment c = label ++ rendered_body c ++ ellipsis c) /\
  rendered_body c = firstn 500 original /\
  (length (rendered_body c) <= 500)%nat /\
  (ellipsis c = lit "..." <-> (500 < length original)%nat) /\
  (ellipsis c = [] <-> (length original <= 500)%nat).
Proof.
  intros original; subst original.
  split; [|split; [|split; [|split]]].
  - exists (prefix c ++ lit " " ++ username c ++ lit ": ").
    unfold format_comment; rewrite <- !app_assoc; reflexivity.
  - apply rendered_body_is_prefix.
  - rewrite rendered_body_is_prefix, length_firstn; lia.
  - destruct (ellipsis_cases c) as [[E H]|[E H]]; rewrite E; split;
      try tauto; try discriminate; lia.
  - destruct (ellipsis_cases c) as [[E H]|[E H]]; rewrite E; split;
      try tauto; try discriminate; lia.
Qed.

Lemma isBot_iff (c : Comment) :
  isBot c = true <-> user_login c = Some bot_login.
Proof.
  unfold isBot; destruct (user_login c) as [l|].
  - rewrite str_eqb_eq; split; congruence.
  - split; discriminate.
Qed.

Lemma format_comment_starts_with_prefix (c : Comment) :
  starts_with (prefix c) (format_comment c).
Proof. unfold format_comment; eexists; reflexivity. Qed.

Example safe_integer_bounds :
  safe_integer 9007199254740991 /\ safe_integer (- 9007199254740991) /\
  ~ safe_integer 9007199254740992 /\ ~ safe_integer (- 9007199254740992).
Proof. unfold safe_integer; lia. Qed.

Lemma join_interleaved (sep x : jsstring) (xs : list jsstring) :
  join sep (x :: xs) = x ++ flat_map (fun y => sep ++ y) xs.
Proof.
  revert x; induction xs as [|y ys IH]; intros x.
  - symmetry; apply app_nil_r.
  - change (join sep (x :: y :: ys)) with (x ++ sep ++ join sep (y :: ys)).
    rewrite IH; cbn [flat_map]; rewrite <- app_assoc; reflexivity.
Qed.

Lemma author_is_bot (c : Comment) :
  user_login c = Some bot_login <->
  exists u, user c = Some u /\ login u = lit "pga-github-app".
Proof.
  unfold user_login; destruct (user c) as [u|]; simpl.
  - split.
    + intros E; inversion E; exists u; auto.
    + intros [u' [E Hl]]; inversion E; subst; rewrite Hl; reflexivity.
  - split; [discriminate | intros [u [E _]]; discriminate].
Qed.

(** C4. For a comment list of length [n] the comments are some older ones
    followed by a window of exactly [min n 30], and the transcript is the
    entries of the window in the order of the list, oldest first, with two
    line feeds between consecutive entries and nothing before the first or
    after the last. The entry of a comment is its label, a blank, the
    author's login or [unknown], a colon and a blank, the first 500 code
    units of the body, and the marker when the body is longer. *)
Theorem transcript_keeps_the_last_thirty (comments : list Comment) :
  let entry := fun c : Comment =>
    let author := match user c with
                  | Some u => login u
                  | None => []
                  end in
    let text := match body c with
                | Some b => b
                | None => []
                end in
    (if list_eq_dec Z.eq_dec author (lit "pga-github-app")
     then lit "[BOT RESPONSE]" else lit "[USER]")
    ++ lit " "
    ++ (match author with
        | [] => lit "unknown"
        | _ :: _ => author
        end)
    ++ lit ": " ++ firstn 500 text
    ++ (if (500 <? length text)%nat then lit "..." else []) in
  exists older window,
    comments = older ++ window /\
    length window = Nat.min (length comments) 30 /\
    previousComments comments
    = match window with
      | [] => []
      | first :: rest =>
          entry first ++ flat_map (fun c => [10; 10] ++ entry c) rest
      end.
Proof.
  intros entry.
  assert (Hentry : forall c, format_comment c = entry c).
  { intros c; unfold entry, format_comment.
    assert (Hprefix :
              prefix c
              = if list_eq_dec Z.eq_dec
                     match user c with Some u => login u | None => [] end
                     (lit "pga-github-app")
                then lit "[BOT RESPONSE]" else lit "[USER]").
    { unfold prefix; pose proof (isBot_iff c) as Hb.
      rewrite author_is_bot in Hb.
      destruct (list_eq_dec Z.eq_dec _ _) as [E|E].
      - destruct (user c) as [u|]; [|discriminate E].
        replace (isBot c) with true; [reflexivity|].
        symmetry; apply Hb; exists u; auto.
      - destruct (isBot c); [|reflexivity].
        exfalso; destruct (proj1 Hb eq_refl) as [u [Hu Hl]].
        rewrite Hu in E; auto. }
    assert (Hname :
              username c
              = match match user c with Some u => login u | None => [] end
                with
                | [] => lit "unknown"
                | _ :: _ =>
                    match user c with Some u => login u | None => [] end
                end).
    { unfold username, user_login, js_or.
      destruct (user c) as [[[|x l]]|]; reflexivity. }
    assert (Hmark :
              ellipsis c
              = if (500 <? length match body c with
                                  | Some b => b
                                  | None => []
                                  end)%nat
                then lit "..." else []).
    { destruct (ellipsis_cases c) as [[-> H]|[-> H]]; unfold nullish in H.
      - replace (500 <? _)%nat with true; [reflexivity|].
        symmetry; apply Nat.ltb_lt; exact H.
      - replace (500 <? _)%nat with false; [reflexivity|].
        symmetry; apply Nat.ltb_ge; exact H. }
    rewrite Hprefix, Hname, Hmark, rendered_body_is_prefix.
    unfold nullish; reflexivity. }
  destruct (window_of_thirty comments) as [older [E Hlen]].
  exists older, (slice (-30) comments); split; [exact E|split; [exact Hlen|]].
  unfold previousComments.
  destruct (slice (-30) comments) as [|first rest]; [reflexivity|].
  cbn [map]; rewrite join_interleaved, Hentry; f_equal.
  rewrite flat_map_concat_map, map_map, <- flat_map_concat_map.
  apply flat_map_ext; intros c; rewrite Hentry; reflexivity.
Qed.

(** Scenario B of the specification: of 45 comments the transcript holds
    the 16th to the 45th, in that order. *)
Example forty_five_comments :
  previousComments (map numbered_comment (seq 1 45))
  = lit "[USER] octocat: 16"
    ++ flat_map (fun n => nl ++ nl ++ lit "[USER] octocat: "
                          ++ Number_toString (Z.of_nat n)) (seq 17 29).
Proof. vm_compute; reflexivity. Qed.

(** C8. A transcript entry starts with [[BOT RESPONSE]] if and only if the
    comment has a user whose login is ["pga-github-app"], and with [[USER]]
    if and only if it has not, which includes a comment without user. *)
Theorem role_label_follows_author (c : Comment) :
  (starts_with (lit "[BOT RESPONSE]") (format_comment c) <->
   exists u, user c = Some u /\ login u = lit "pga-github-app") /\
  (starts_with (lit "[USER]") (format_comment c) <->
   ~ exists u, user c = Some u /\ login u = lit "pga-github-app") /\
  (user c = None -> starts_with (lit "[USER]") (format_comment c)).
Proof.
  rewrite <- author_is_bot.
  pose proof (isBot_iff c) as Hbot.
  pose proof (format_comment_starts_with_prefix c) as Hp.
  assert (Hexcl : forall rest rest' : jsstring,
             lit "[BOT RESPONSE]" ++ rest <> lit "[USER]" ++ rest').
  { intros rest rest' E; vm_compute in E; discriminate. }
  unfold prefix in Hp.
  destruct (isBot c) eqn:Eb.
  - assert (Hl : user_login c = Some bot_login) by (apply Hbot; reflexivity).
    split; [|split].
    + tauto.
    + split; [|congruence].
      intros [rest' E']; destruct Hp as [rest E].
      exfalso; apply (Hexcl rest rest'); congruence.
    + intros Hu; unfold user_login in Hl; rewrite Hu in Hl; discriminate.
  - assert (Hl : user_login c <> Some bot_login)
      by (intros E; apply Hbot in E; discriminate).
    split; [|split].
    + split; [|tauto].
      intros [rest' E']; destruct Hp as [rest E].
      exfalso; apply (Hexcl rest' rest); congruence.
    + tauto.
    + intros _; exact Hp.
Qed.

(** ** Content resolver *)

Lemma NotAFile_neq_UnreadableContent (path path' : jsstring) :
  NotAFile path <> UnreadableContent path'.
Proof. intros E; vm_compute in E; discriminate. Qed.

Section Resolver.

Variable P : Platform.
Variable octokit : Octokit P.
Variables owner repo path : jsstring.

(** One call of the platform, whose failure passes through unchanged. *)
Lemma fetchFullFileContent_run (L : Type) (l : L) (w : World P) :
  let wr := repos_getContent P octokit owner repo path w in
  fetchFullFileContent octokit owner repo path l w =
  mkRun l (fst wr)
    [Called (CallGetContent owner repo path) (failure_of (snd wr))]
    (match snd wr with
     | Ok d => resolution path d
     | Throw e => Throw e
     end).
Proof.
  unfold fetchFullFileContent, bind, invoke; simpl.
  destruct (repos_getContent P octokit owner repo path w) as [w' [d|e]];
    simpl; [|reflexivity].
  destruct d as [text|entries|type content]; simpl; try reflexivity.
  destruct (str_eqb type (lit "file") && truthy_opt content); reflexivity.
Qed.

Lemma fetchFullFileContent_result
  (L : Type) (l : L) (w w' : World P) (d : ContentData) :
  repos_getContent P octokit owner repo path w = (w', Ok d) ->
  result (fetchFullFileContent octokit owner repo path l w)
  = resolution path d.
Proof.
  intros H; rewrite fetchFullFileContent_run; simpl; rewrite H; reflexivity.
Qed.

(** Away from the object of a zero-byte file the error conditions are
    clear-cut. When the platform answers with [d], other than that object:
    the resolver raises [NotAFile] exactly when [d] is an array, and
    [UnreadableContent] exactly when [d] is not an array, not plain text
    and not a file object with a content. *)
Lemma resolver_error_conditions
  (L : Type) (l : L) (w w' : World P) (d : ContentData) :
  repos_getContent P octokit owner repo path w = (w', Ok d) ->
  d <> zero_byte_file ->
  let r := result (fetchFullFileContent octokit owner repo path l w) in
  (r = Throw (NotAFile path) <-> directory_shaped d) /\
  (r = Throw (UnreadableContent path) <->
   ~ directory_shaped d /\ ~ plain_text d /\ ~ file_with_encoded_body d).
Proof.
  intros H Hz r; subst r.
  rewrite (@fetchFullFileContent_result L l w w' d H).
  pose proof (@NotAFile_neq_UnreadableContent path path) as Hne.
  destruct d as [text|entries|type [encoded|]]; simpl.
  - split; split; try tauto; discriminate.
  - split; split; try tauto; intros E; congruence.
  - destruct (str_eqb type (lit "file")) eqn:Et; simpl.
    + apply str_eqb_eq in Et; subst type.
      destruct encoded as [|c encoded]; [exfalso; apply Hz; reflexivity|].
      simpl; split; split; try tauto; discriminate.
    + apply str_eqb_neq in Et.
      split; split; try tauto; intros E; congruence.
  - rewrite andb_false_r.
    split; split; try tauto; intros E; congruence.
Qed.

(** C10. When the platform answers with the object of a zero-byte file,
    which is of type ["file"] and has a content, the empty string, the
    resolver raises [UnreadableContent] and does not return the empty text:
    the content is tested for truthiness. *)
Theorem zero_byte_file_is_unreadable
  (L : Type) (l : L) (w w' : World P) :
  repos_getContent P octokit owner repo path w = (w', Ok zero_byte_file) ->
  file_with_encoded_body zero_byte_file /\
  truthy_opt (Some []) = false /\
  result (fetchFullFileContent octokit owner repo path l w)
  = Throw (UnreadableContent path) /\
  result (fetchFullFileContent octokit owner repo path l w) <> Ok [].
Proof.
  intros H; rewrite (@fetchFullFileContent_result L l w w' _ H).
  repeat split; discriminate.
Qed.

(** C6 at the object of a zero-byte file. That response is not an array;
    it is a file object that has a content, the encoding of no bytes; and the
    resolver raises [UnreadableContent] on it. So [UnreadableContent] is not
    raised exactly when the response is neither plain text nor a file object
    carrying an encoded body. *)
Theorem zero_byte_file_breaks_error_conditions
  (L : Type) (l : L) (w w' : World P) :
  repos_getContent P octokit owner repo path w = (w', Ok zero_byte_file) ->
  let r := result (fetchFullFileContent octokit owner repo path l w) in
  ~ directory_shaped zero_byte_file /\
  file_with_encoded_body zero_byte_file /\
  r = Throw (UnreadableContent path) /\
  ~ (r = Throw (UnreadableContent path) <->
     ~ plain_text zero_byte_file /\ ~ file_with_encoded_body zero_byte_file).
Proof.
  intros H r; subst r.
  rewrite (@fetchFullFileContent_result L l w w' _ H).
  split; [intros []|split; [reflexivity|split; [reflexivity|]]].
  intros [Hto _]; destruct (Hto eq_refl) as [_ Hno].
  apply Hno; reflexivity.
Qed.

(** C7 at the empty text. The transport encoding of the empty text is the
    empty string, so the platform's object for it is that of a zero-byte
    file, and the resolver raises [UnreadableContent] where the round trip
    asks for the empty text. *)
Theorem empty_text_is_not_recovered
  (L : Type) (l : L) (w w' : World P) :
  repos_getContent P octokit owner repo path w = (w', Ok (encoded_file [])) ->
  result (fetchFullFileContent octokit owner repo path l w)
  = Throw (UnreadableContent path) /\
  result (fetchFullFileContent octokit owner repo path l w)
  <> Ok (js_of_text []).
Proof.
  intros H; rewrite (@fetchFullFileContent_result L l w w' _ H).
  split; [reflexivity | discriminate].
Qed.

End Resolver.

Lemma resolver_error_conditions_witness :
  let r := result (fetchFullFileContent (P := scripted sample_script) tt
                     (lit "o") (lit "r") (lit "link") tt 0%nat) in
  (r = Throw (NotAFile (lit "link")) <->
   directory_shaped (DataObject (lit "symlink") None)) /\
  (r = Throw (UnreadableContent (lit "link")) <->
   ~ directory_shaped (DataObject (lit "symlink") None) /\
   ~ plain_text (DataObject (lit "symlink") None) /\
   ~ file_with_encoded_body (DataObject (lit "symlink") None)).
Proof.
  apply (@resolver_error_conditions (scripted sample_script) tt
           (lit "o") (lit "r") (lit "link") unit tt 0%nat 1%nat).
  - reflexivity.
  - discriminate.
Defined.

Lemma zero_byte_file_is_unreadable_witness :
  let r := result (fetchFullFileContent (P := scripted sample_script) tt
                     (lit "o") (lit "r") (lit "empty.ts") tt 0%nat) in
  file_with_encoded_body zero_byte_file /\
  truthy_opt (Some []) = false /\
  r = Throw (UnreadableContent (lit "empty.ts")) /\
  r <> Ok [].
Proof.
  apply (@zero_byte_file_is_unreadable (scripted sample_script) tt
           (lit "o") (lit "r") (lit "empty.ts") unit tt 0%nat 1%nat).
  reflexivity.
Defined.

Lemma zero_byte_file_breaks_error_conditions_witness :
  let r := result (fetchFullFileContent (P := scripted sample_script) tt
                     (lit "o") (lit "r") (lit "empty.ts") tt 0%nat) in
  ~ directory_shaped zero_byte_file /\
  file_with_encoded_body zero_byte_file /\
  r = Throw (UnreadableContent (lit "empty.ts")) /\
  ~ (r = Throw (UnreadableContent (lit "empty.ts")) <->
     ~ plain_text zero_byte_file /\ ~ file_with_encoded_body zero_byte_file).
Proof.
  apply (@zero_byte_file_breaks_error_conditions (scripted sample_script) tt
           (lit "o") (lit "r") (lit "empty.ts") unit tt 0%nat 1%nat).
  reflexivity.
Defined.

(** ** Structural aggregator *)

Lemma code_points_step (h l : Z) (t : jsstring) :
  code_points (h :: l :: t)
  = if is_high_surrogate h && is_low_surrogate l
    then [h; l] :: code_points t
    else [h] :: code_points (l :: t).
Proof. reflexivity. Qed.

(** Iterating a string loses nothing of it: the code points, put end to
    end, are the string. *)
Lemma code_points_concat (s : jsstring) : concat (code_points s) = s.
Proof.
  assert (H : forall (n : nat) (s : jsstring),
             (length s <= n)%nat -> concat (code_points s) = s).
  { clear s; induction n as [|n IH]; intros s Hs.
    - destruct s; [reflexivity | simpl in Hs; lia].
    - destruct s as [|h [|l t]]; [reflexivity | reflexivity |].
      rewrite code_points_step.
      destruct (is_high_surrogate h && is_low_surrogate l);
        cbn [concat app]; rewrite IH; try reflexivity; simpl in *; lia. }
  apply (H (length s)); lia.
Qed.

(** A surrogate pair is one turn of the loop, a lone surrogate and any other
    code unit one each. *)
Example code_points_of_a_pair :
  code_points [97; 55357; 56832; 98; 55357]
  = [[97]; [55357; 56832]; [98]; [55357]].
Proof. reflexivity. Qed.

Example code_points_of_a_repository_name :
  code_points (lit "PGA") = [lit "P"; lit "G"; lit "A"].
Proof. reflexivity. Qed.

Lemma not_included_in_empty (part : jsstring) :
  part <> [] -> ~ includes part [].
Proof.
  intros Hne [before [after E]].
  symmetry in E; apply app_eq_nil in E; destruct E as [_ E].
  apply app_eq_nil in E; destruct E as [E _]; auto.
Qed.

Lemma failure_lines_silent (items : list Item) :
  forallb per_file_event (failure_lines items) = true.
Proof. induction items as [|item items IH]; [reflexivity | exact IH]. Qed.

Lemma failure_lines_have_no_call (items : list Item) :
  content_requests (failure_lines items) = [] /\
  parse_inputs (failure_lines items) = [].
Proof. induction items as [|item items IH]; [split; reflexivity | exact IH]. Qed.

Section Aggregator.

Variable P : Platform.

(** What the statements of the [try] block do for a client, were they
    reached. A file that resolves to [text] and parses to [tree] gets its
    section in both accumulators. *)
Lemma process_file_appends_both_sections
  (octokit : Octokit P) (owner repo : jsstring) (f : ChangedFile)
  (acc : Aggregate) (w w1 w2 : World P) (text : jsstring) (tree : Tree P) :
  repos_getContent P octokit owner repo (filename f) w
  = (w1, Ok (DataString text)) ->
  parseCode P text w1 = (w2, Ok tree) ->
  let r := process_file octokit (VString owner) (VString repo) (ItemFile f)
             acc w in
  result r = Ok tt /\
  world r = w2 /\
  rawCode (locals r)
  = rawCode acc ++ lit "### " ++ filename f ++ nl ++ lit "```" ++ nl ++ text
    ++ nl ++ lit "```" ++ nl ++ nl /\
  astReport (locals r)
  = astReport acc ++ lit "### " ++ filename f ++ nl ++ lit "```" ++ nl
    ++ rootNode_toString P tree ++ nl ++ lit "```" ++ nl ++ nl.
Proof.
  intros Hcontent Hparse r; subst r.
  unfold process_file, bind; rewrite fetchFullFileContent_run.
  cbn [text_of interpolate item_filename]; rewrite Hcontent.
  cbn [fst snd result locals world events resolution].
  unfold modify, invoke; cbn [result locals world events].
  rewrite Hparse; cbn [fst snd result locals world events rawCode astReport].
  repeat split.
Qed.

(** A file that resolves to [text] and that the parser rejects with [e]
    keeps its section in [rawCode]; [astReport] is as it was, and [e] is
    what the block throws. *)
Lemma process_file_keeps_raw_section
  (octokit : Octokit P) (owner repo : jsstring) (f : ChangedFile)
  (acc : Aggregate) (w w1 w2 : World P) (text : jsstring) (e : Thrown) :
  repos_getContent P octokit owner repo (filename f) w
  = (w1, Ok (DataString text)) ->
  parseCode P text w1 = (w2, Throw e) ->
  let r := process_file octokit (VString owner) (VString repo) (ItemFile f)
             acc w in
  result r = Throw e /\
  rawCode (locals r)
  = rawCode acc ++ lit "### " ++ filename f ++ nl ++ lit "```" ++ nl ++ text
    ++ nl ++ lit "```" ++ nl ++ nl /\
  astReport (locals r) = astReport acc.
Proof.
  intros Hcontent Hparse r; subst r.
  unfold process_file, bind; rewrite fetchFullFileContent_run.
  cbn [text_of interpolate item_filename]; rewrite Hcontent.
  cbn [fst snd result locals world events resolution].
  unfold modify, invoke; cbn [result locals world events].
  rewrite Hparse; cbn [fst snd result locals world events rawCode astReport].
  repeat split.
Qed.

(** A turn of the loop stops at the reference to [octokit]: it writes the
    error line of the item and changes nothing. *)
Lemma aggregate_file_run
  (owner repo : JsValue P) (file : Item) (acc : Aggregate) (w : World P) :
  aggregate_file owner repo file acc w
  = mkRun acc w (failure_lines [file]) (Ok tt).
Proof. reflexivity. Qed.

Lemma for_of_aggregate_run
  (owner repo : JsValue P) (items : list Item) (acc : Aggregate)
  (w : World P) :
  for_of items (aggregate_file owner repo) acc w
  = mkRun acc w (failure_lines items) (Ok tt).
Proof.
  induction items as [|item items IH]; [reflexivity|].
  cbn [for_of]; unfold bind; rewrite aggregate_file_run.
  cbn [result locals world events]; rewrite IH; reflexivity.
Qed.

(** The whole function, by what its third parameter holds. *)
Lemma aggregateASTReport_run
  (L : Type) (arguments : list (JsValue P)) (l : L) (w : World P) :
  aggregateASTReport arguments l w
  = match parameter 2 arguments with
    | VFiles files =>
        mkRun l w (failure_lines (map ItemFile files)) (Ok empty_report)
    | VString s =>
        mkRun l w (failure_lines (map ItemCharacter (code_points s)))
          (Ok empty_report)
    | _ =>
        mkRun l w []
          (Throw (JsError (lit "changedFilesData is not iterable")))
    end.
Proof.
  unfold aggregateASTReport, with_locals, bind, iterate.
  destruct (parameter 2 arguments) as [|s|octokit|files];
    cbn [ret throw result locals world events];
    try reflexivity;
    rewrite for_of_aggregate_run; cbn [result locals world events get];
    rewrite app_nil_r; reflexivity.
Qed.

Lemma aggregateASTReport_result
  (L : Type) (arguments : list (JsValue P)) (l : L) (w : World P)
  (report : Aggregate) :
  result (aggregateASTReport arguments l w) = Ok report ->
  report = empty_report.
Proof.
  rewrite aggregateASTReport_run.
  destruct (parameter 2 arguments); cbn [result]; intros E;
    inversion E; reflexivity.
Qed.

Lemma failure_line_of_file (files : list ChangedFile) (f : ChangedFile) :
  In f files ->
  In (ConsoleError (lit "Error processing file " ++ filename f ++ lit ":")
        (Some (JsError (lit "octokit is not defined"))))
     (failure_lines (map ItemFile files)).
Proof.
  intros H; unfold failure_lines; rewrite map_map.
  apply in_map_iff; exists f; split; [reflexivity | exact H].
Qed.

(** C1 on the code as written. Called with the owner, the repository and a
    list of file records, the aggregator returns a report, and for every
    file of the list, whatever the platform would answer for it and whatever
    the parser would make of the answer: the console holds the line
    [Error processing file <filename>:] with the [ReferenceError] of the
    name [octokit], and neither [rawCode] nor [astReport] has a section of
    that file. A file that could be processed is thus treated like one that
    fails, and its sections are missing. *)
Theorem no_file_is_ever_processed
  (L : Type) (owner repo : jsstring) (files : list ChangedFile)
  (l : L) (w : World P) (f : ChangedFile) (content ast : jsstring) :
  In f files ->
  let r := aggregateASTReport
             [VString owner; VString repo; VFiles files] l w in
  exists report,
    result r = Ok report /\
    In (ConsoleError (lit "Error processing file " ++ filename f ++ lit ":")
          (Some (JsError (lit "octokit is not defined")))) (events r) /\
    ~ includes (lit "### " ++ filename f ++ nl ++ lit "```" ++ nl ++ content
                ++ nl ++ lit "```" ++ nl ++ nl) (rawCode report) /\
    ~ includes (lit "### " ++ filename f ++ nl ++ lit "```" ++ nl ++ ast
                ++ nl ++ lit "```" ++ nl ++ nl) (astReport report).
Proof.
  intros Hf r; subst r; rewrite aggregateASTReport_run.
  cbn [parameter nth result events].
  exists empty_report; split; [reflexivity|split; [|split]].
  - apply failure_line_of_file; exact Hf.
  - apply not_included_in_empty; discriminate.
  - apply not_included_in_empty; discriminate.
Qed.

(** C2 on the code as written. Whatever the list of files, the platform and
    the parser, [rawCode] and [astReport] come back empty: there is no
    section in them, in any order, while the console has one error line per
    file, in the order of the list. *)
Theorem aggregated_strings_are_always_empty
  (L : Type) (owner repo : jsstring) (files : list ChangedFile)
  (l : L) (w : World P) :
  let r := aggregateASTReport
             [VString owner; VString repo; VFiles files] l w in
  result r = Ok {| rawCode := []; astReport := [] |} /\
  events r
  = map (fun f =>
           ConsoleError (lit "Error processing file " ++ filename f ++ lit ":")
             (Some (JsError (lit "octokit is not defined")))) files.
Proof.
  intros r; subst r; rewrite aggregateASTReport_run.
  cbn [parameter nth result events]; split; [reflexivity|].
  unfold failure_lines; rewrite map_map; reflexivity.
Qed.

(** C9 on the code as written. The step that the claim is about is never
    reached: whatever the list of files, the aggregator requests no content
    and never calls the parser, it leaves the world as it found it, and the
    [rawCode] it returns contains the section of none of the files. *)
Theorem parse_step_is_never_reached
  (L : Type) (owner repo : jsstring) (files : list ChangedFile)
  (l : L) (w : World P) :
  let r := aggregateASTReport
             [VString owner; VString repo; VFiles files] l w in
  content_requests (events r) = [] /\
  parse_inputs (events r) = [] /\
  world r = w /\
  forall report f content,
    result r = Ok report ->
    In f files ->
    ~ includes (lit "### " ++ filename f ++ nl ++ lit "```" ++ nl ++ content
                ++ nl ++ lit "```" ++ nl ++ nl) (rawCode report).
Proof.
  intros r; subst r; rewrite aggregateASTReport_run.
  cbn [parameter nth result events world].
  destruct (failure_lines_have_no_call (map ItemFile files)) as [Hc Hp].
  split; [exact Hc|split; [exact Hp|split; [reflexivity|]]].
  intros report f content E _; inversion E; subst.
  apply not_included_in_empty; discriminate.
Qed.

End Aggregator.

Lemma no_file_is_ever_processed_witness :
  let r := aggregateASTReport (P := scripted sample_script)
             [VString (lit "forbeskat"); VString (lit "PGA-tester");
              VFiles sample_files] tt 0%nat in
  sample_content (lit "a.ts") = Ok (DataString (lit "let a")) /\
  sample_parse (lit "let a") = Ok (lit "(program)") /\
  exists report,
    result r = Ok report /\
    In (ConsoleError (lit "Error processing file a.ts:")
          (Some (JsError (lit "octokit is not defined")))) (events r) /\
    ~ includes (lit "### a.ts" ++ nl ++ lit "```" ++ nl ++ lit "let a"
                ++ nl ++ lit "```" ++ nl ++ nl) (rawCode report) /\
    ~ includes (lit "### a.ts" ++ nl ++ lit "```" ++ nl ++ lit "(program)"
                ++ nl ++ lit "```" ++ nl ++ nl) (astReport report).
Proof.
  split; [reflexivity|split; [reflexivity|]].
  apply (@no_file_is_ever_processed (scripted sample_script) unit
           (lit "forbeskat") (lit "PGA-tester") sample_files tt 0%nat
           (changed_file (lit "a.ts")) (lit "let a") (lit "(program)")).
  left; reflexivity.
Defined.

(** The statements of the block on the first sample file, for a client:
    both sections are appended. *)
Example block_on_a_sample_file :
  let r := process_file (P := scripted sample_script) tt
             (VString (lit "forbeskat")) (VString (lit "PGA-tester"))
             (ItemFile (changed_file (lit "a.ts")))
             {| rawCode := []; astReport := [] |} 0%nat in
  result r = Ok tt /\
  rawCode (locals r)
  = lit "### a.ts" ++ nl ++ lit "```" ++ nl ++ lit "let a" ++ nl
    ++ lit "```" ++ nl ++ nl /\
  astReport (locals r)
  = lit "### a.ts" ++ nl ++ lit "```" ++ nl ++ lit "(program)" ++ nl
    ++ lit "```" ++ nl ++ nl.
Proof. vm_compute; auto. Qed.

(** The run on the sample repository: three files, of which the platform
    would serve two as text, and nothing but three error lines. *)
Example aggregator_on_the_sample_files :
  let r := aggregateASTReport (P := scripted sample_script)
             [VString (lit "forbeskat"); VString (lit "PGA-tester");
              VFiles sample_files] tt 0%nat in
  result r = Ok {| rawCode := []; astReport := [] |} /\
  world r = 0%nat /\
  events r
  = [ConsoleError (lit "Error processing file a.ts:")
       (Some (JsError (lit "octokit is not defined")));
     ConsoleError (lit "Error processing file lib:")
       (Some (JsError (lit "octokit is not defined")));
     ConsoleError (lit "Error processing file b.ts:")
       (Some (JsError (lit "octokit is not defined")))].
Proof. vm_compute; auto. Qed.

(** ** Event handlers *)

Lemma handler_calls_app (a b : list Event) :
  handler_calls (a ++ b) = handler_calls a ++ handler_calls b.
Proof. apply flat_map_app. Qed.

Lemma handler_error_lines_app (a b : list Event) :
  handler_error_lines (a ++ b)
  = handler_error_lines a ++ handler_error_lines b.
Proof. apply flat_map_app. Qed.

(** Per-file events are invisible at the level of the handler. *)
Lemma per_file_events_silent (evs : list Event) :
  forallb per_file_event evs = true ->
  handler_calls evs = [] /\ handler_error_lines evs = [].
Proof.
  induction evs as [|ev evs IH]; simpl; [auto|].
  rewrite andb_true_iff; intros [Hev Hevs].
  destruct (IH Hevs) as [-> ->].
  destruct ev as [c f|line|line [e|]]; simpl in *;
    try discriminate; try rewrite Hev; auto.
Qed.

Lemma called_in_handler_calls
  (evs : list Event) (c : ApiCall) (f : option Thrown) :
  In (Called c f) evs -> per_file_event (Called c f) = false ->
  In (c, f) (handler_calls evs).
Proof.
  intros Hin Hp; unfold handler_calls; apply in_flat_map.
  exists (Called c f); split; [exact Hin|].
  cbv beta iota; rewrite Hp; left; reflexivity.
Qed.

Lemma handler_calls_called
  (evs : list Event) (c : ApiCall) (f : option Thrown) :
  In (c, f) (handler_calls evs) -> In (Called c f) evs.
Proof.
  unfold handler_calls; rewrite in_flat_map; intros [ev [Hin Hc]].
  destruct ev as [c' f'|line|line arg]; try contradiction.
  destruct (per_file_event (Called c' f')); [contradiction|].
  destruct Hc as [E|[]]; inversion E; subst; exact Hin.
Qed.

Lemma per_file_event_call (c : ApiCall) (f g : option Thrown) :
  per_file_event (Called c f) = per_file_event (Called c g).
Proof. destruct c; reflexivity. Qed.

Lemma handler_calls_own (c : ApiCall) (f : option Thrown) :
  per_file_event (Called c None) = false ->
  handler_calls [Called c f] = [(c, f)].
Proof.
  intros H; unfold handler_calls; cbn [flat_map].
  rewrite (per_file_event_call c f None), H; reflexivity.
Qed.

Section Handlers.

Variable P : Platform.

Lemma obeys_ret (L A : Type) (logged : bool) (a : A) :
  obeys logged [] (ret a : M P L A).
Proof. intros l w; simpl; auto. Qed.

Lemma obeys_console_log (L : Type) (logged : bool) (line : jsstring) :
  obeys logged [] (console_log line : M P L unit).
Proof. intros l w; simpl; auto. Qed.

(** A call of the handler's own: one operation, and its failure is the
    result. *)
Lemma obeys_invoke (L A : Type) (c : ApiCall)
  (oracle : World P -> World P * outcome A) :
  per_file_event (Called c None) = false ->
  obeys false [operation c] (invoke c oracle : M P L A).
Proof.
  intros Hc l w; unfold invoke.
  destruct (oracle w) as [w' [a|e]]; cbn [result events fst snd failure_of];
    rewrite (@handler_calls_own c _ Hc).
  - repeat split; auto. repeat constructor.
  - exists [], c, []; repeat split; auto.
Qed.

Lemma obeys_invoke_op (L A : Type) (c : ApiCall) (op : Operation)
  (oracle : World P -> World P * outcome A) :
  per_file_event (Called c None) = false ->
  operation c = op ->
  obeys false [op] (invoke c oracle : M P L A).
Proof. intros Hc <-; apply obeys_invoke; exact Hc. Qed.

(** Sequencing appends the operations; a failure of the first part hides
    the second. *)
Lemma obeys_bind (L A B : Type) (ops ops1 ops2 : list Operation)
  (m : M P L A) (k : A -> M P L B) :
  obeys false ops1 m ->
  (forall a, obeys false ops2 (k a)) ->
  ops = ops1 ++ ops2 ->
  obeys false ops (bind m k).
Proof.
  intros Hm Hk -> l w; unfold bind.
  specialize (Hm l w); simpl in Hm.
  destruct (result (m l w)) as [a|e]; simpl.
  - destruct Hm as [Hops [Hret Hlines]].
    specialize (Hk a (locals (m l w)) (world (m l w))); simpl in Hk.
    rewrite handler_calls_app, handler_error_lines_app, Hlines; simpl.
    destruct (result (k a (locals (m l w)) (world (m l w)))) as [b|e].
    + destruct Hk as [Hops' [Hret' Hlines']].
      unfold operations in *; rewrite map_app, Hops, Hops'.
      repeat split; auto. apply Forall_app; auto.
    + destruct Hk as [done [c [rest [Hc [Hret' [Hops' Hlines']]]]]].
      exists (handler_calls (events (m l w)) ++ done), c, rest.
      rewrite Hc, Hops', <- Hops, app_assoc.
      split; [reflexivity|split; [apply Forall_app; auto|split; [|auto]]].
      unfold operations; rewrite map_app, app_assoc; reflexivity.
  - destruct Hm as [done [c [rest [Hc [Hret [Hops Hlines]]]]]].
    exists done, c, (rest ++ ops2).
    rewrite Hops, <- app_assoc; simpl.
    repeat split; auto.
Qed.

(** As the handlers call it, with a string at the third position, the
    aggregator adds no operation of the handler and always returns. *)
Lemma obeys_aggregate (L : Type) (a b d : JsValue P) (s : jsstring) :
  obeys false []
    (aggregateASTReport [a; b; VString s; d] : M P L Aggregate).
Proof.
  intros l w; cbv zeta; rewrite aggregateASTReport_run.
  cbn [parameter nth result events].
  destruct (per_file_events_silent _
              (failure_lines_silent (map ItemCharacter (code_points s))))
    as [-> ->].
  repeat split; auto.
Qed.

(** The [catch] clause reports an [Error] and throws the same value on. *)
Lemma obeys_try_catch (A : Type) (ops : list Operation) (body : M P unit A) :
  obeys false ops body ->
  obeys true ops (try_catch body log_and_rethrow).
Proof.
  intros Hb l w; unfold try_catch.
  specialize (Hb l w); simpl in Hb.
  destruct (result (body l w)) as [a|e] eqn:Er; simpl.
  - rewrite Er; exact Hb.
  - destruct Hb as [done [c [rest [Hc [Hret [Hops Hlines]]]]]].
    assert (Hlog : forall l' w',
               let r := log_and_rethrow (P := P) (A := A) e l' w' in
               result r = Throw e /\
               handler_calls (events r) = [] /\
               handler_error_lines (events r) = caught_lines e).
    { intros l' w'; destruct e; repeat split. }
    destruct (Hlog (locals (body l w)) (world (body l w))) as [H1 [H2 H3]].
    rewrite H1, handler_calls_app, handler_error_lines_app, H2, H3, Hlines.
    rewrite app_nil_r; simpl.
    exists done, c, rest; repeat split; auto.
Qed.

(** The installation lookup, then a guarded body: the run follows the plan
    made of both. *)
Lemma follows_after_lookup (A : Type) (ops : list Operation)
  (m : M P unit A) (k : A -> M P unit unit) :
  obeys false [OpGetInstallationOctokit] m ->
  (forall a, obeys true ops (k a)) ->
  ~ In OpGetInstallationOctokit ops ->
  handler_follows (OpGetInstallationOctokit :: ops) (bind m k).
Proof.
  intros Hm Hk Hnot l w; unfold bind.
  specialize (Hm l w); simpl in Hm.
  destruct (result (m l w)) as [a|e]; simpl.
  - destruct Hm as [Hops [Hret Hlines]].
    specialize (Hk a (locals (m l w)) (world (m l w))); simpl in Hk.
    rewrite handler_calls_app, handler_error_lines_app, Hlines; simpl.
    destruct (result (k a (locals (m l w)) (world (m l w)))) as [[]|e].
    + destruct Hk as [Hops' [Hret' Hlines']].
      rewrite Hlines'; apply plan_completed.
      * unfold operations in *; rewrite map_app, Hops, Hops'; reflexivity.
      * apply Forall_app; auto.
    + destruct Hk as [done [c [rest [Hc [Hret' [Hops' Hlines']]]]]].
      rewrite Hc, Hlines', app_assoc.
      replace (caught_lines e) with (expected_lines c e).
      * apply plan_failed with (rest := rest); [apply Forall_app; auto|].
        unfold operations in *; rewrite map_app, Hops, Hops'; reflexivity.
      * unfold expected_lines.
        destruct (operation c) eqn:Ec; try reflexivity.
        exfalso; apply Hnot; rewrite Hops'.
        apply in_or_app; right; left; reflexivity.
  - destruct Hm as [done [c [rest [Hc [Hret [Hops Hlines]]]]]].
    rewrite Hc, Hlines.
    assert (Hdone : done = [] /\ operation c = OpGetInstallationOctokit).
    { destruct done as [|d done]; simpl in Hops.
      - inversion Hops; auto.
      - inversion Hops as [[H1 H2]].
        exfalso; destruct (operations done); discriminate. }
    destruct Hdone as [-> Hop].
    replace (@nil jsstring) with (expected_lines c e)
      by (unfold expected_lines; rewrite Hop; reflexivity).
    apply plan_failed with (rest := ops); [constructor|].
    simpl; rewrite Hop; reflexivity.
Qed.

(** A line on the console before the handler starts changes nothing. *)
Lemma follows_console_log (plan : list Operation) (line : jsstring)
  (m : M P unit unit) :
  handler_follows plan m ->
  handler_follows plan (bind (console_log line) (fun _ => m)).
Proof.
  intros Hm l w; unfold bind, console_log; simpl.
  specialize (Hm l w).
  destruct (m l w) as [l' w' evs res]; simpl in *; exact Hm.
Qed.

End Handlers.

(** Discharges [obeys] along the syntax of a program. *)
Ltac obey :=
  cbv beta zeta;
  lazymatch goal with
  | |- obeys _ _ (ret _) => apply obeys_ret
  | |- obeys _ _ (console_log _) => apply obeys_console_log
  | |- obeys _ _ (invoke _ _) =>
      eapply obeys_invoke_op; [reflexivity | simpl; reflexivity]
  | |- obeys _ _ (aggregateASTReport _) => apply obeys_aggregate
  | |- obeys _ _ (fetchChangedFilesData _ _ _ _) =>
      unfold fetchChangedFilesData; obey
  | |- obeys _ _ (postComment _ _ _ _ _) => unfold postComment; obey
  | |- obeys _ _ (try_catch _ log_and_rethrow) =>
      apply obeys_try_catch; obey
  | |- obeys _ _ (bind _ _) =>
      eapply obeys_bind; [obey | intro; obey | reflexivity]
  end.

Section HandlerPlans.

Variable P : Platform.

Lemma handlePullRequestEvent_follows_plan (payload : Payload) :
  handler_follows new_pr_plan (handlePullRequestEvent P payload).
Proof.
  unfold handlePullRequestEvent, new_pr_plan.
  apply follows_after_lookup.
  - apply obeys_invoke; reflexivity.
  - intros octokit; obey.
  - simpl; intuition discriminate.
Qed.

Lemma handlePullRequestCommentEvent_follows_plan (payload : Payload) :
  handler_follows follow_up_plan (handlePullRequestCommentEvent P payload).
Proof.
  unfold handlePullRequestCommentEvent, follow_up_plan.
  apply follows_console_log.
  apply follows_after_lookup.
  - apply obeys_invoke; reflexivity.
  - intros octokit; obey.
  - simpl; intuition discriminate.
Qed.

End HandlerPlans.

Lemma new_pr_plan_posts_last : posts_last new_pr_plan.
Proof.
  intros pre op post H Hin; unfold new_pr_plan in H.
  destruct pre as [|a [|b [|c [|d pre]]]]; simpl in H, Hin;
    inversion H; subst; simpl in Hin; try intuition discriminate.
  destruct pre; discriminate.
Qed.

Lemma follow_up_plan_posts_last : posts_last follow_up_plan.
Proof.
  intros pre op post H Hin; unfold follow_up_plan in H.
  destruct pre as [|a [|b [|c [|d [|x [|y pre]]]]]]; simpl in H, Hin;
    inversion H; subst; simpl in Hin; try intuition discriminate.
  destruct pre; discriminate.
Qed.

Lemma returned_not_thrown
  (calls : list (ApiCall * option Thrown)) (c : ApiCall) (e : Thrown) :
  Forall returned calls -> ~ In (c, Some e) calls.
Proof.
  intros Hret Hin; rewrite Forall_forall in Hret.
  specialize (Hret _ Hin); discriminate.
Qed.

Lemma createComment_is_own_call (ev : Event) :
  is_createComment ev = true ->
  exists c f, ev = Called c f /\ operation c = OpCreateComment /\
              per_file_event ev = false.
Proof.
  destruct ev as [c f|line|line arg]; try discriminate.
  destruct c; try discriminate; intros _; eauto.
Qed.

Lemma in_operations
  (calls : list (ApiCall * option Thrown)) (c : ApiCall) (f : option Thrown) :
  In (c, f) calls -> In (operation c) (operations calls).
Proof.
  intros H; unfold operations.
  change (operation c) with ((fun cf => operation (fst cf)) (c, f)).
  apply in_map; exact H.
Qed.

(** A run that follows a plan ending with the posting keeps the policy. *)
Lemma policy_of_plan
  (plan : list Operation) (evs : list Event) (res : outcome unit) :
  posts_last plan ->
  follows_plan plan (handler_calls evs) (handler_error_lines evs) res ->
  failure_policy plan evs res.
Proof.
  intros Hlast H.
  remember (handler_calls evs) as calls eqn:Ecalls.
  remember (handler_error_lines evs) as lines eqn:Elines.
  destruct H as [calls Hops Hret | done c e rest Hret Hplan].
  - constructor.
    + intros c e Hin Hgen; exfalso.
      apply (returned_not_thrown c e Hret); rewrite Ecalls.
      apply called_in_handler_calls; [exact Hin|].
      destruct c; try discriminate; reflexivity.
    + intros e; split; [discriminate|].
      intros [c Hin]; exfalso; rewrite <- Ecalls in Hin.
      apply (returned_not_thrown c e Hret Hin).
    + intros c e Hin; exfalso; rewrite <- Ecalls in Hin.
      apply (returned_not_thrown c e Hret Hin).
    + exists []; rewrite <- Ecalls, app_nil_r; auto.
    + intros before c e after E; exfalso.
      apply (returned_not_thrown c e Hret).
      rewrite Ecalls, E; apply in_or_app; right; left; reflexivity.
    + discriminate.
  - assert (Honly : forall c' e', In (c', Some e') (handler_calls evs) ->
                                  c' = c /\ e' = e).
    { intros c' e' Hin; rewrite <- Ecalls in Hin.
      apply in_app_or in Hin; destruct Hin as [Hin|[E|[]]].
      - exfalso; apply (returned_not_thrown c' e' Hret Hin).
      - inversion E; auto. }
    assert (Hdone : forall c' f, In (c', f) (handler_calls evs) ->
                                 operation c' = OpCreateComment ->
                                 (c', f) = (c, Some e)).
    { intros c' f Hin Hop; rewrite <- Ecalls in Hin.
      apply in_app_or in Hin; destruct Hin as [Hin|[E|[]]]; [|auto].
      exfalso; apply (Hlast _ _ _ Hplan).
      rewrite <- Hop; apply (in_operations _ _ _ Hin). }
    constructor.
    + intros c' e' Hin Hgen.
      assert (Hp : per_file_event (Called c' (Some e')) = false)
        by (destruct c'; try discriminate; reflexivity).
      destruct (Honly c' e' (called_in_handler_calls _ _ _ Hin Hp))
        as [-> ->].
      split; [reflexivity|].
      destruct (existsb is_createComment evs) eqn:Ex; [|reflexivity].
      apply existsb_exists in Ex; destruct Ex as [ev [Hev Hcc]].
      destruct (createComment_is_own_call _ Hcc) as [cc [f [-> [Hop Hpf]]]].
      pose proof (Hdone cc f (called_in_handler_calls _ _ _ Hev Hpf) Hop)
        as E.
      inversion E; subst.
      match type of Hop with
      | operation ?x = _ => destruct x; discriminate
      end.
    + intros e'; split.
      * intros E; inversion E; subst; exists c.
        rewrite <- Ecalls; apply in_or_app; right; left; reflexivity.
      * intros [c' Hin]; destruct (Honly c' e' Hin) as [_ ->]; reflexivity.
    + intros c' e' Hin; destruct (Honly c' e' Hin) as [-> ->].
      symmetry; exact Elines.
    + exists rest; rewrite <- Ecalls, Hplan.
      unfold operations; rewrite map_app, <- app_assoc; reflexivity.
    + intros before c' e' after E; rewrite <- Ecalls in E.
      destruct after as [|x after] using rev_ind; [reflexivity|exfalso].
      clear IHafter.
      change (before ++ (c', Some e') :: after ++ [x])
        with (before ++ ((c', Some e') :: after) ++ [x]) in E.
      rewrite app_assoc in E; apply app_inj_tail in E; destruct E as [E _].
      apply (returned_not_thrown c' e' Hret).
      rewrite E; apply in_or_app; right; left; reflexivity.
    + intros e' _ owner repo issue text Hin.
      assert (E : (CallCreateComment owner repo issue text, None)
                  = (c, Some e)).
      { apply Hdone; [|reflexivity].
        apply called_in_handler_calls; [exact Hin | reflexivity]. }
      discriminate.
Qed.

(** C3, amended. For both handlers and every payload and world, the run
    follows the plan of the handler: its own operations (installation
    lookup, listing, metadata, generator, posting) are called once each, in
    the order of the plan, all returning, up to the first one that throws;
    that call is the last, and its value is what the handler throws. Hence:
    - if the feedback generator throws [e], the handler ends with [e] thrown
      and no [createComment] call was made;
    - the handler ends with a value thrown exactly when one of its own calls
      threw it; failures inside [aggregateASTReport] never reach it;
    - that value has been written to the console exactly when the call was
      inside the [try] block, which the installation lookup is not, and the
      value is an [Error];
    - no operation is called twice, and none after a failure;
    - when the handler ends with a value thrown, no [createComment] call has
      returned. *)
Theorem handlers_keep_failure_policy
  (P : Platform) (payload : Payload) (w : World P) :
  let r := handlePullRequestEvent P payload tt w in
  let r' := handlePullRequestCommentEvent P payload tt w in
  (NoDup new_pr_plan /\
   follows_plan new_pr_plan (handler_calls (events r))
     (handler_error_lines (events r)) (result r) /\
   failure_policy new_pr_plan (events r) (result r)) /\
  (NoDup follow_up_plan /\
   follows_plan follow_up_plan (handler_calls (events r'))
     (handler_error_lines (events r')) (result r') /\
   failure_policy follow_up_plan (events r') (result r')).
Proof.
  intros r r'; split; split.
  - unfold new_pr_plan; repeat constructor; simpl; intuition discriminate.
  - split; [apply handlePullRequestEvent_follows_plan|].
    apply policy_of_plan; [apply new_pr_plan_posts_last|].
    apply handlePullRequestEvent_follows_plan.
  - unfold follow_up_plan; repeat constructor; simpl; intuition discriminate.
  - split; [apply handlePullRequestCommentEvent_follows_plan|].
    apply policy_of_plan; [apply follow_up_plan_posts_last|].
    apply handlePullRequestCommentEvent_follows_plan.
Qed.

(** C3 as worded fails when the installation lookup throws: the handler
    ends with the value thrown, and the console has no line at all. *)
Lemma lookup_failure_is_not_logged :
  let r := handlePullRequestEvent (scripted installation_down)
             sample_payload tt 0%nat in
  result r = Throw (JsError (lit "Bad credentials")) /\
  events r = [Called (CallGetInstallationOctokit 7)
                (Some (JsError (lit "Bad credentials")))] /\
  ~ exceptions_as_specified (events r) (result r).
Proof.
  split; [reflexivity | split; [reflexivity |]].
  intros H; destruct (H _ eq_refl) as [line [arg Hin]].
  vm_compute in Hin; destruct Hin as [E|[]]; discriminate.
Qed.

(** A thrown value that is not an [Error] passes the [catch] clause without
    a line. *)
Example text_thrown_by_generator_is_not_logged :
  let r := handlePullRequestEvent (scripted generator_throws_text)
             sample_payload tt 0%nat in
  result r = Throw (JsOther (lit "rate limited")) /\
  handler_error_lines (events r) = [] /\
  existsb is_createComment (events r) = false.
Proof. vm_compute; auto. Qed.

(** Scenario C of the specification: the generator fails, nothing is posted,
    the error reaches the caller after one line on the console. *)
Example generator_failure_scenario :
  let r := handlePullRequestEvent (scripted generator_down)
             sample_payload tt 0%nat in
  result r = Throw (JsError (lit "model overloaded")) /\
  operations (handler_calls (events r))
  = [OpGetInstallationOctokit; OpListFiles; OpGenerateCodeFeedback] /\
  handler_error_lines (events r)
  = [lit "Error handling PR event: model overloaded"] /\
  existsb is_createComment (events r) = false.
Proof. vm_compute; auto. Qed.

(** Scenario A of the specification on the code as written: whatever the
    files, the event is answered, after one error line per character of the
    repository name. *)
Example partial_failure_scenario :
  let r := handlePullRequestEvent (scripted sample_script)
             sample_payload tt 0%nat in
  result r = Ok tt /\
  operations (handler_calls (events r)) = new_pr_plan /\
  console_events (events r)
  = repeat (ConsoleError (lit "Error processing file undefined:")
              (Some (JsError (lit "octokit is not defined")))) 10
    ++ [ConsoleLog (lit "Posted feedback comment on PR #12")].
Proof. vm_compute; intuition. Qed.

(** ** The transport encoding *)

Lemma list_ind3 (A : Type) (Q : list A -> Prop) :
  Q [] -> (forall a, Q [a]) -> (forall a b, Q [a; b]) ->
  (forall a b c r, Q r -> Q (a :: b :: c :: r)) ->
  forall l, Q l.
Proof.
  intros H0 H1 H2 H3.
  fix IH 1; intros [|a [|b [|c r]]];
    [apply H0 | apply H1 | apply H2 | apply H3; apply IH].
Qed.

Lemma unbase64_digit (v : Z) :
  0 <= v < 64 ->
  unbase64 (base64_digit v) = Some v /\ (base64_digit v =? 61) = false.
Proof.
  intros Hv.
  assert (Hall : forallb
                   (fun n =>
                      let v := Z.of_nat n in
                      match unbase64 (base64_digit v) with
                      | Some v' => (v' =? v) && negb (base64_digit v =? 61)
                      | None => false
                      end) (seq 0 64) = true) by (vm_compute; reflexivity).
  rewrite forallb_forall in Hall.
  specialize (Hall (Z.to_nat v)).
  rewrite Z2Nat.id in Hall by lia.
  assert (Hin : In (Z.to_nat v) (seq 0 64)) by (apply in_seq; lia).
  specialize (Hall Hin); cbv zeta in Hall.
  destruct (unbase64 (base64_digit v)) as [v'|]; [|discriminate].
  apply andb_true_iff in Hall; destruct Hall as [E N].
  apply Z.eqb_eq in E; subst v'.
  apply negb_true_iff in N; auto.
Qed.

Lemma base64_sextets_digit (v : Z) (s : jsstring) :
  0 <= v < 64 ->
  base64_sextets (base64_digit v :: s) = v :: base64_sextets s.
Proof.
  intros Hv; destruct (unbase64_digit Hv) as [Hu Hp].
  cbn [base64_sextets]; rewrite Hp, Hu; reflexivity.
Qed.

Lemma base64_sextets_padding (s : jsstring) : base64_sextets (61 :: s) = [].
Proof. reflexivity. Qed.

(** The line feeds with which the platform breaks a long encoding do not
    count. *)
Lemma base64_sextets_line_feed (s : jsstring) :
  base64_sextets (nl ++ s) = base64_sextets s.
Proof. reflexivity. Qed.

Ltac sextet_range := Z.div_mod_to_equations; lia.

(** Decoding undoes the platform's base64 on every sequence of bytes. *)
Lemma Buffer_from_base64_encode (bs : list Z) :
  Forall is_byte bs -> Buffer_from_base64 (base64_encode bs) = bs.
Proof.
  unfold Buffer_from_base64, is_byte.
  induction bs as [| b0 | b0 b1 | b0 b1 b2 r IH] using list_ind3; intros Hb.
  - reflexivity.
  - inversion Hb as [|? ? H0 _]; subst.
    cbn [base64_encode].
    rewrite !base64_sextets_digit, base64_sextets_padding by sextet_range.
    cbn [base64_bytes]; f_equal; sextet_range.
  - inversion Hb as [|? ? H0 Hb1]; subst.
    inversion Hb1 as [|? ? H1 _]; subst.
    cbn [base64_encode].
    rewrite !base64_sextets_digit, base64_sextets_padding by sextet_range.
    cbn [base64_bytes]; repeat f_equal; sextet_range.
  - inversion Hb as [|? ? H0 Hb1]; subst.
    inversion Hb1 as [|? ? H1 Hb2]; subst.
    inversion Hb2 as [|? ? H2 Hr]; subst.
    cbn [base64_encode].
    rewrite !base64_sextets_digit by sextet_range.
    cbn [base64_bytes]; rewrite (IH Hr).
    repeat f_equal; sextet_range.
Qed.

Ltac range_bool :=
  unfold is_continuation, in_range, second_lower, second_upper;
  repeat match goal with
         | |- context [?a =? ?b] => destruct (Z.eqb_spec a b)
         end;
  rewrite ?andb_true_iff, ?Z.leb_le, ?Z.ltb_lt, ?Z.ltb_ge;
  Z.div_mod_to_equations; lia.

Lemma utf8_scalars_1 (b0 : Z) (r : list Z) :
  (b0 <? 128) = true -> utf8_scalars (b0 :: r) = b0 :: utf8_scalars r.
Proof. intros H; cbn [utf8_scalars]; rewrite H; reflexivity. Qed.

Lemma utf8_scalars_2 (b0 b1 : Z) (r : list Z) :
  (b0 <? 128) = false -> in_range 194 223 b0 = true ->
  is_continuation b1 = true ->
  utf8_scalars (b0 :: b1 :: r)
  = ((b0 - 192) * 64 + (b1 - 128)) :: utf8_scalars r.
Proof.
  intros H0 H1 H2; cbn [utf8_scalars]; rewrite H0, H1, H2; reflexivity.
Qed.

Lemma utf8_scalars_3 (b0 b1 b2 : Z) (r : list Z) :
  (b0 <? 128) = false -> in_range 194 223 b0 = false ->
  in_range 224 239 b0 = true ->
  in_range (second_lower b0) (second_upper b0) b1 = true ->
  is_continuation b2 = true ->
  utf8_scalars (b0 :: b1 :: b2 :: r)
  = ((b0 - 224) * 4096 + (b1 - 128) * 64 + (b2 - 128)) :: utf8_scalars r.
Proof.
  intros H0 H1 H2 H3 H4; cbn [utf8_scalars].
  rewrite H0, H1, H2, H3, H4; reflexivity.
Qed.

Lemma utf8_scalars_4 (b0 b1 b2 b3 : Z) (r : list Z) :
  (b0 <? 128) = false -> in_range 194 223 b0 = false ->
  in_range 224 239 b0 = false -> in_range 240 244 b0 = true ->
  in_range (second_lower b0) (second_upper b0) b1 = true ->
  is_continuation b2 = true -> is_continuation b3 = true ->
  utf8_scalars (b0 :: b1 :: b2 :: b3 :: r)
  = ((b0 - 240) * 262144 + (b1 - 128) * 4096 + (b2 - 128) * 64 + (b3 - 128))
    :: utf8_scalars r.
Proof.
  intros H0 H1 H2 H3 H4 H5 H6; cbn [utf8_scalars].
  rewrite H0, H1, H2, H3, H4, H5, H6; reflexivity.
Qed.

Lemma in_range_false (lo hi c : Z) :
  c < lo \/ hi < c -> in_range lo hi c = false.
Proof.
  intros H; unfold in_range; apply andb_false_iff.
  rewrite !Z.leb_gt; lia.
Qed.

Lemma is_scalar_range (cp : Z) :
  is_scalar cp = true ->
  0 <= cp <= 55295 \/ 57344 <= cp <= 1114111.
Proof.
  unfold is_scalar, in_range.
  rewrite orb_true_iff, !andb_true_iff, !Z.leb_le; lia.
Qed.

(** The decoder reads back the scalar value that the encoder wrote. *)
Lemma utf8_scalars_bytes (cp : Z) (rest : list Z) :
  is_scalar cp = true ->
  utf8_scalars (utf8_bytes cp ++ rest) = cp :: utf8_scalars rest.
Proof.
  intros Hs; apply is_scalar_range in Hs.
  unfold utf8_bytes.
  destruct (Z.ltb_spec cp 128) as [H1|H1].
  - cbn [app]; apply utf8_scalars_1; apply Z.ltb_lt; exact H1.
  - destruct (Z.ltb_spec cp 2048) as [H2|H2].
    + cbn [app]; rewrite utf8_scalars_2.
      * f_equal; Z.div_mod_to_equations; lia.
      * apply Z.ltb_ge; Z.div_mod_to_equations; lia.
      * range_bool.
      * range_bool.
    + destruct (Z.ltb_spec cp 65536) as [H3|H3].
      * cbn [app]; rewrite utf8_scalars_3.
        -- f_equal; Z.div_mod_to_equations; lia.
        -- apply Z.ltb_ge; Z.div_mod_to_equations; lia.
        -- apply in_range_false; Z.div_mod_to_equations; lia.
        -- range_bool.
        -- range_bool.
        -- range_bool.
      * cbn [app]; rewrite utf8_scalars_4.
        -- f_equal; Z.div_mod_to_equations; lia.
        -- apply Z.ltb_ge; Z.div_mod_to_equations; lia.
        -- apply in_range_false; Z.div_mod_to_equations; lia.
        -- apply in_range_false; Z.div_mod_to_equations; lia.
        -- range_bool.
        -- range_bool.
        -- range_bool.
        -- range_bool.
Qed.

Lemma utf8_bytes_are_bytes (cp : Z) :
  is_scalar cp = true -> Forall is_byte (utf8_bytes cp).
Proof.
  intros Hs; apply is_scalar_range in Hs.
  unfold utf8_bytes, is_byte.
  destruct (Z.ltb_spec cp 128); [|destruct (Z.ltb_spec cp 2048);
    [|destruct (Z.ltb_spec cp 65536)]];
    repeat constructor; Z.div_mod_to_equations; lia.
Qed.

Lemma utf8_bytes_nonempty (cp : Z) : utf8_bytes cp <> [].
Proof.
  unfold utf8_bytes.
  destruct (cp <? 128); [|destruct (cp <? 2048); [|destruct (cp <? 65536)]];
    discriminate.
Qed.

Lemma utf8_encode_bytes (t : list Z) :
  is_text t -> Forall is_byte (utf8_encode t).
Proof.
  unfold is_text, utf8_encode; induction 1 as [|cp t Hcp _ IH];
    cbn [flat_map].
  - constructor.
  - apply Forall_app; split; [apply utf8_bytes_are_bytes; exact Hcp | exact IH].
Qed.

Lemma utf8_scalars_encode (t : list Z) :
  is_text t -> utf8_scalars (utf8_encode t) = t.
Proof.
  unfold is_text, utf8_encode; induction 1 as [|cp t Hcp _ IH];
    cbn [flat_map].
  - reflexivity.
  - rewrite (@utf8_scalars_bytes cp _ Hcp), IH; reflexivity.
Qed.

(** The round trip of the transport encoding, outside the resolver. *)
Lemma decode_encoded_text (t : list Z) :
  is_text t ->
  toString_utf8 (Buffer_from_base64 (base64_encode (utf8_encode t)))
  = js_of_text t.
Proof.
  intros Ht; unfold toString_utf8.
  rewrite Buffer_from_base64_encode by (apply utf8_encode_bytes; exact Ht).
  rewrite utf8_scalars_encode by exact Ht; reflexivity.
Qed.

Lemma base64_encode_nonempty (bs : list Z) :
  bs <> [] -> truthy (base64_encode bs) = true.
Proof.
  destruct bs as [|b0 [|b1 [|b2 r]]]; [congruence | reflexivity ..].
Qed.

Lemma utf8_encode_nonempty (t : list Z) : t <> [] -> utf8_encode t <> [].
Proof.
  destruct t as [|cp t]; [congruence|]; intros _ E.
  unfold utf8_encode in E; cbn [flat_map] in E.
  apply app_eq_nil in E; destruct E as [E _].
  exact (utf8_bytes_nonempty cp E).
Qed.

(** The resolver recovers every non-empty text from its transport
    encoding. *)
Lemma nonempty_text_is_recovered
  (P : Platform) (octokit : Octokit P) (owner repo path : jsstring)
  (L : Type) (l : L) (w w' : World P) (t : list Z) :
  repos_getContent P octokit owner repo path w = (w', Ok (encoded_file t)) ->
  is_text t -> t <> [] ->
  result (fetchFullFileContent octokit owner repo path l w)
  = Ok (js_of_text t).
Proof.
  intros H Ht Hne.
  rewrite (@fetchFullFileContent_result P octokit owner repo path L l w w'
             _ H).
  unfold encoded_file, resolution; cbn [truthy_opt nullish].
  rewrite str_eqb_refl, base64_encode_nonempty
    by (apply utf8_encode_nonempty; exact Hne).
  cbn [andb]; rewrite decode_encoded_text by exact Ht; reflexivity.
Qed.

Example encoded_sample_is_recovered :
  result (fetchFullFileContent (P := scripted sample_script) tt
            (lit "o") (lit "r") (lit "hi.txt") tt 0%nat)
  = Ok [104; 233; 8364].
Proof. vm_compute; reflexivity. Qed.

Lemma empty_text_is_not_recovered_witness :
  let r := result (fetchFullFileContent (P := scripted sample_script) tt
                     (lit "o") (lit "r") (lit "empty.ts") tt 0%nat) in
  r = Throw (UnreadableContent (lit "empty.ts")) /\ r <> Ok (js_of_text []).
Proof.
  apply (@empty_text_is_not_recovered (scripted sample_script) tt
           (lit "o") (lit "r") (lit "empty.ts") unit tt 0%nat 1%nat).
  reflexivity.
Defined.

(** * Further properties *)

(** ** Content resolver *)

(** X1. The resolver asks the platform once and changes nothing else. When
    it throws, the value is the one the platform threw, or [NotAFile], or
    [UnreadableContent], and a failure of the platform always comes out
    unchanged; a plain-text answer, the empty one included, is returned as
    it is. *)
Theorem resolver_outcomes
  (P : Platform) (octokit : Octokit P) (owner repo path : jsstring)
  (L : Type) (l : L) (w : World P) :
  let answer := repos_getContent P octokit owner repo path w in
  let r := fetchFullFileContent octokit owner repo path l w in
  events r = [Called (CallGetContent owner repo path)
                (failure_of (snd answer))] /\
  world r = fst answer /\
  locals r = l /\
  (forall e, result r = Throw e ->
             snd answer = Throw e \/ e = NotAFile path \/
             e = UnreadableContent path) /\
  (forall e, snd answer = Throw e -> result r = Throw e) /\
  (forall text, snd answer = Ok (DataString text) -> result r = Ok text).
Proof.
  intros answer r; subst answer r.
  rewrite fetchFullFileContent_run; cbn [events world locals result].
  repeat split.
  - destruct (snd (repos_getContent P octokit owner repo path w))
      as [d|e']; [|intros e E; left; inversion E; reflexivity].
    intros e E; right.
    destruct d as [text|entries|type content]; simpl in E.
    + discriminate.
    + inversion E; auto.
    + destruct (str_eqb type (lit "file") && truthy_opt content);
        inversion E; auto.
  - intros e ->; reflexivity.
  - intros text ->; reflexivity.
Qed.

Lemma base64_sextets_without_line_feeds (s : jsstring) :
  base64_sextets (without_line_feeds s) = base64_sextets s.
Proof.
  unfold without_line_feeds; induction s as [|c s IH]; [reflexivity|].
  cbn [filter]; destruct (Z.eqb_spec c 10) as [->|Hc]; cbn [negb].
  - rewrite IH; reflexivity.
  - cbn [base64_sextets]; rewrite IH; reflexivity.
Qed.

(** X2. A file object whose content is the base64 of a non-empty text, cut
    into lines by line feeds at any places, resolves to that text. *)
Theorem wrapped_encoding_is_recovered
  (P : Platform) (octokit : Octokit P) (owner repo path : jsstring)
  (L : Type) (l : L) (w w' : World P) (content : jsstring) (t : list Z) :
  repos_getContent P octokit owner repo path w
  = (w', Ok (DataObject (lit "file") (Some content))) ->
  without_line_feeds content = base64_encode (utf8_encode t) ->
  is_text t -> t <> [] ->
  result (fetchFullFileContent octokit owner repo path l w)
  = Ok (js_of_text t).
Proof.
  intros H Hc Ht Hne.
  rewrite (@fetchFullFileContent_result P octokit owner repo path L l w w'
             _ H).
  unfold resolution; cbn [truthy_opt nullish].
  assert (Htr : truthy content = true).
  { destruct content as [|c content]; [|reflexivity].
    exfalso; cbn in Hc.
    pose proof (base64_encode_nonempty (utf8_encode_nonempty Hne)) as Hb.
    rewrite <- Hc in Hb; discriminate. }
  rewrite str_eqb_refl, Htr; cbn [andb].
  unfold Buffer_from_base64.
  rewrite <- base64_sextets_without_line_feeds, Hc.
  fold (Buffer_from_base64 (base64_encode (utf8_encode t))).
  rewrite decode_encoded_text by exact Ht; reflexivity.
Qed.

Lemma wrapped_encoding_is_recovered_witness :
  result (fetchFullFileContent (P := scripted wrapped_script) tt
            (lit "o") (lit "r") (lit "hi.txt") tt 0%nat)
  = Ok (js_of_text [104; 233; 8364]).
Proof.
  apply (@wrapped_encoding_is_recovered (scripted wrapped_script) tt
           (lit "o") (lit "r") (lit "hi.txt") unit tt 0%nat 1%nat
           (lit "aMOp" ++ nl ++ lit "4oKs" ++ nl) [104; 233; 8364]).
  - reflexivity.
  - reflexivity.
  - repeat constructor.
  - discriminate.
Defined.

(** ** Structural aggregator *)

(** X3. As written, [aggregateASTReport] never reaches the platform or the
    parser. Whatever its first two arguments, with an array of file records
    at the third position it makes no call, changes neither the world nor the
    caller's variables, writes one [Error processing file <filename>:] line
    per record, in the order of the array and each with the
    [ReferenceError] of the name [octokit], and returns two empty strings. *)
Theorem aggregator_only_reports_errors
  (P : Platform) (L : Type) (first second : JsValue P)
  (files : list ChangedFile) (others : list (JsValue P))
  (l : L) (w : World P) :
  aggregateASTReport (first :: second :: VFiles files :: others) l w
  = mkRun l w
      (map (fun f =>
              ConsoleError
                (lit "Error processing file " ++ filename f ++ lit ":")
                (Some (JsError (lit "octokit is not defined")))) files)
      (Ok {| rawCode := []; astReport := [] |}).
Proof.
  rewrite aggregateASTReport_run; cbn [parameter nth].
  unfold failure_lines; rewrite map_map; reflexivity.
Qed.

(** X4. Called the way both handlers call it, with the client first, the
    aggregator finds the repository name where it expects the file records:
    it walks the code points of that string, writes one
    [Error processing file undefined:] line for each, and returns two empty
    strings. The file records, at the fourth position, have no effect. *)
Theorem aggregator_walks_the_repository_name
  (P : Platform) (L : Type) (octokit : Octokit P) (owner repo : jsstring)
  (files : list ChangedFile) (l : L) (w : World P) :
  aggregateASTReport
    [VClient octokit; VString owner; VString repo; VFiles files] l w
  = mkRun l w
      (map (fun _ =>
              ConsoleError (lit "Error processing file undefined:")
                (Some (JsError (lit "octokit is not defined"))))
         (code_points repo))
      (Ok {| rawCode := []; astReport := [] |}).
Proof.
  rewrite aggregateASTReport_run; cbn [parameter nth].
  unfold failure_lines; rewrite map_map; reflexivity.
Qed.

(** ** Changed files *)

(** X5. [fetchChangedFilesData] asks the platform once, for one page of 100
    files of the pull request it was given, and changes nothing else. A
    failure of the platform comes out unchanged. Otherwise it returns one
    record per listed file, in the order of the listing, and each record
    has the filename, the status, the three counts and the patch of its
    file, the patch absent where the file has none. *)
Theorem changed_files_are_listed_once
  (P : Platform) (octokit : Octokit P) (owner repo : jsstring)
  (pull_number : Z) (L : Type) (l : L) (w : World P) :
  let answer := pulls_listFiles P octokit owner repo pull_number 100 w in
  let r := fetchChangedFilesData octokit owner repo pull_number l w in
  events r = [Called (CallListFiles owner repo pull_number 100)
                (failure_of (snd answer))] /\
  world r = fst answer /\
  locals r = l /\
  (forall e, snd answer = Throw e -> result r = Throw e) /\
  (forall files, snd answer = Ok files ->
     exists records,
       result r = Ok records /\
       length records = length files /\
       forall i file, nth_error files i = Some file ->
         exists record,
           nth_error records i = Some record /\
           filename record = pf_filename file /\
           status record = pf_status file /\
           additions record = pf_additions file /\
           deletions record = pf_deletions file /\
           changes record = pf_changes file /\
           patch record = pf_patch file).
Proof.
  intros answer r; subst answer r.
  unfold fetchChangedFilesData, bind, invoke, ret.
  destruct (pulls_listFiles P octokit owner repo pull_number 100 w)
    as [w' [files|e]]; cbn [fst snd events world locals result failure_of].
  - rewrite app_nil_r; repeat split; [discriminate|].
    intros files' E; inversion E; subst files'.
    eexists; split; [reflexivity|split; [apply length_map|]].
    intros i file Hi; eexists; split;
      [apply map_nth_error; exact Hi|repeat split].
  - repeat split;
      [intros e' E; inversion E; reflexivity|discriminate].
Qed.

(** ** Event handlers *)

Section Runs.

Variable P : Platform.

Lemma ret_run (L A : Type) (a : A) (l : L) (w : World P) :
  ret a l w = mkRun l w [] (Ok a).
Proof. reflexivity. Qed.

Lemma invoke_returns (L A : Type) (c : ApiCall)
  (oracle : World P -> World P * outcome A)
  (l : L) (w w' : World P) (a : A) :
  oracle w = (w', Ok a) ->
  invoke c oracle l w = mkRun l w' [Called c None] (Ok a).
Proof. intros H; unfold invoke; rewrite H; reflexivity. Qed.

Lemma bind_run (L A B : Type) (m : M P L A) (k : A -> M P L B)
  (l l1 l2 : L) (w w1 w2 : World P) (ev1 ev2 : list Event)
  (a : A) (r : outcome B) :
  m l w = mkRun l1 w1 ev1 (Ok a) ->
  k a l1 w1 = mkRun l2 w2 ev2 r ->
  bind m k l w = mkRun l2 w2 (ev1 ++ ev2) r.
Proof. intros Hm Hk; unfold bind; rewrite Hm; simpl; rewrite Hk; reflexivity. Qed.

Lemma try_catch_returns (L A : Type) (body : M P L A)
  (handler : Thrown -> M P L A)
  (l l1 : L) (w w1 : World P) (ev : list Event) (a : A) :
  body l w = mkRun l1 w1 ev (Ok a) ->
  try_catch body handler l w = mkRun l1 w1 ev (Ok a).
Proof. intros H; unfold try_catch; rewrite H; reflexivity. Qed.

Lemma run_of_unit (A : Type) (r : Run P unit A) (a : A) :
  result r = Ok a -> r = mkRun tt (world r) (events r) (Ok a).
Proof. destruct r as [[] w evs res]; simpl; intros ->; reflexivity. Qed.

(** X6. The whole of a new pull request that goes through. When the
    installation lookup, the listing, the generator and the posting return,
    the handler returns after exactly this: the lookup; the listing of the
    pull request named by the payload (number 0 when it names none), one
    page of 100; one error line of the aggregator per code point of the
    repository name; one call of the generator with the records of the
    listed files and two empty strings; the posting of the generator's text
    as it came, on that pull request; the log line of the posting. The
    number is taken to be a safe integer, which fixes its decimal form. *)
Theorem new_pull_request_is_answered
  (payload : Payload) (w w1 w2 w3 w4 : World P) (octokit : Octokit P)
  (files : list PullFile) (feedback : jsstring) :
  let owner := repository_owner_login payload in
  let repo := repository_name payload in
  let number := nullish (pull_request_number payload) 0 in
  let changed := map changed_file_of files in
  safe_integer number ->
  getInstallationOctokit P (installation_id payload) w = (w1, Ok octokit) ->
  pulls_listFiles P octokit owner repo number 100 w1 = (w2, Ok files) ->
  generateCodeFeedback P changed [] [] w2 = (w3, Ok feedback) ->
  issues_createComment P octokit owner repo number feedback w3
  = (w4, Ok tt) ->
  handlePullRequestEvent P payload tt w
  = mkRun tt w4
      ([Called (CallGetInstallationOctokit (installation_id payload)) None;
        Called (CallListFiles owner repo number 100) None]
       ++ map (fun _ =>
                 ConsoleError (lit "Error processing file undefined:")
                   (Some (JsError (lit "octokit is not defined"))))
            (code_points repo)
       ++ [Called (CallGenerateCodeFeedback changed [] []) None;
           Called (CallCreateComment owner repo number feedback) None;
           ConsoleLog (lit "Posted feedback comment on PR #"
                       ++ Number_toString number)])
      (Ok tt).
Proof.
  intros owner repo number changed _ Hauth Hlist Hgen Hpost.
  unfold handlePullRequestEvent.
  etransitivity.
  - eapply bind_run; [apply invoke_returns; exact Hauth|].
    cbv beta zeta; apply try_catch_returns.
    eapply bind_run.
    { unfold fetchChangedFilesData.
      eapply bind_run; [apply invoke_returns; exact Hlist | apply ret_run]. }
    eapply bind_run;
      [rewrite aggregateASTReport_run; cbn [parameter nth]; reflexivity|].
    eapply bind_run; [apply invoke_returns; exact Hgen|].
    eapply bind_run;
      [unfold postComment; apply invoke_returns; exact Hpost|].
    reflexivity.
  - unfold failure_lines; rewrite map_map; reflexivity.
Qed.

(** X7. The whole of a follow-up that goes through. The handler reads the
    pull request and the comments of the issue named by the payload (number
    0 when it names none), lists the changed files, and after one error line
    of the aggregator per code point of the repository name gives the
    generator the pull request, the comment of the payload (the empty string
    when it has none), the transcript of the comments just read, the records
    of the listed files and two empty strings; it posts the generator's text
    as it came on that issue. The number is taken to be a safe integer. *)
Theorem follow_up_is_answered
  (payload : Payload) (w w1 w2 w3 w4 w5 w6 : World P) (octokit : Octokit P)
  (pullRequest : PullRequest P) (comments : list Comment)
  (files : list PullFile) (response : jsstring) :
  let owner := repository_owner_login payload in
  let repo := repository_name payload in
  let number := nullish (issue_number payload) 0 in
  let userComment := nullish (comment_body payload) [] in
  let changed := map changed_file_of files in
  safe_integer number ->
  getInstallationOctokit P (installation_id payload) w = (w1, Ok octokit) ->
  pulls_get P octokit owner repo number w1 = (w2, Ok pullRequest) ->
  issues_listComments P octokit owner repo number w2 = (w3, Ok comments) ->
  pulls_listFiles P octokit owner repo number 100 w3 = (w4, Ok files) ->
  generateFollowUpResponse P pullRequest userComment
    (previousComments comments) changed [] [] w4 = (w5, Ok response) ->
  issues_createComment P octokit owner repo number response w5
  = (w6, Ok tt) ->
  handlePullRequestCommentEvent P payload tt w
  = mkRun tt w6
      ([ConsoleLog (lit "Handling a pull request comment event.");
        Called (CallGetInstallationOctokit (installation_id payload)) None;
        Called (CallPullsGet owner repo number) None;
        Called (CallListComments owner repo number) None;
        Called (CallListFiles owner repo number 100) None]
       ++ map (fun _ =>
                 ConsoleError (lit "Error processing file undefined:")
                   (Some (JsError (lit "octokit is not defined"))))
            (code_points repo)
       ++ [Called (CallGenerateFollowUpResponse userComment
                     (previousComments comments) changed [] []) None;
           Called (CallCreateComment owner repo number response) None;
           ConsoleLog (lit "Posted follow up comment on PR #"
                       ++ Number_toString number)])
      (Ok tt).
Proof.
  intros owner repo number userComment changed _
    Hauth Hpr Hcomments Hlist Hgen Hpost.
  unfold handlePullRequestCommentEvent.
  etransitivity.
  - eapply bind_run; [reflexivity|].
    eapply bind_run; [apply invoke_returns; exact Hauth|].
    cbv beta zeta; apply try_catch_returns.
    eapply bind_run; [apply invoke_returns; exact Hpr|].
    eapply bind_run; [apply invoke_returns; exact Hcomments|].
    eapply bind_run.
    { unfold fetchChangedFilesData.
      eapply bind_run; [apply invoke_returns; exact Hlist | apply ret_run]. }
    eapply bind_run;
      [rewrite aggregateASTReport_run; cbn [parameter nth]; reflexivity|].
    eapply bind_run; [apply invoke_returns; exact Hgen|].
    eapply bind_run;
      [unfold postComment; apply invoke_returns; exact Hpost|].
    reflexivity.
  - unfold failure_lines; rewrite map_map; reflexivity.
Qed.

End Runs.

Lemma new_pull_request_is_answered_witness :
  let r := handlePullRequestEvent (scripted sample_script) sample_payload
             tt 0%nat in
  result r = Ok tt /\
  world r = 4%nat /\
  comment_posted (events r) /\
  In (Called (CallGenerateCodeFeedback sample_files [] []) None) (events r).
Proof.
  intros r; subst r.
  assert (Hsafe : safe_integer 12) by (unfold safe_integer; lia).
  rewrite (@new_pull_request_is_answered (scripted sample_script)
             sample_payload 0%nat 1%nat 2%nat 3%nat 4%nat tt
             [pull_file (lit "a.ts"); pull_file (lit "lib");
              pull_file (lit "b.ts")]
             (lit "LGTM") Hsafe eq_refl eq_refl eq_refl eq_refl).
  split; [reflexivity|split; [reflexivity|split]].
  - exists (lit "forbeskat"), (lit "PGA-tester"), 12, (lit "LGTM").
    apply in_or_app; right; apply in_or_app; right; right; left; reflexivity.
  - apply in_or_app; right; apply in_or_app; right; left; reflexivity.
Defined.

Lemma follow_up_is_answered_witness :
  let r := handlePullRequestCommentEvent (scripted wrapped_script)
             sample_payload tt 0%nat in
  result r = Ok tt /\
  In (Called
        (CallGenerateFollowUpResponse (lit "why?")
           (lit "[USER] octocat: first" ++ nl ++ nl
            ++ lit "[BOT RESPONSE] pga-github-app: second")
           [changed_file (lit "hi.txt")] [] []) None)
     (events r).
Proof.
  intros r; subst r.
  assert (Hsafe : safe_integer 12) by (unfold safe_integer; lia).
  rewrite (@follow_up_is_answered (scripted wrapped_script)
             sample_payload 0%nat 1%nat 2%nat 3%nat 4%nat 5%nat 6%nat tt tt
             [ {| user := Some {| login := lit "octocat" |};
                  body := Some (lit "first") |};
               {| user := Some {| login := bot_login |};
                  body := Some (lit "second") |} ]
             [pull_file (lit "hi.txt")]
             (lit "LGTM") Hsafe eq_refl eq_refl eq_refl eq_refl eq_refl
             eq_refl).
  split; [reflexivity|].
  apply in_or_app; right; apply in_or_app; right; left; reflexivity.
Defined.

Lemma posting_count (evs : list Event) :
  length (filter is_createComment evs)
  = length (filter is_posting (operations (handler_calls evs))).
Proof.
  induction evs as [|ev evs IH]; [reflexivity|].
  change (ev :: evs) with ([ev] ++ evs).
  rewrite filter_app, handler_calls_app.
  unfold operations in *; rewrite map_app, filter_app, !length_app, IH.
  f_equal.
  destruct ev as [c f|line|line arg]; try reflexivity.
  destruct c; reflexivity.
Qed.

(** A plan that ends with the posting and has it nowhere else: the comment
    is posted exactly by the runs that return, and never twice. *)
Lemma posted_iff_completed
  (plan body : list Operation) (evs : list Event) (res : outcome unit) :
  plan = body ++ [OpCreateComment] ->
  filter is_posting body = [] ->
  posts_last plan ->
  follows_plan plan (handler_calls evs) (handler_error_lines evs) res ->
  (res = Ok tt <-> comment_posted evs) /\
  (length (filter is_createComment evs) <= 1)%nat.
Proof.
  intros Hplan Hbody Hlast Hrun; split.
  - pose proof (@policy_of_plan plan evs res Hlast Hrun) as Hpolicy.
    split.
    + intros Hres.
      remember (handler_calls evs) as calls eqn:Ecalls.
      remember (handler_error_lines evs) as lines eqn:Elines.
      destruct Hrun as [calls Hops Hret | done c e rest Hret Hp];
        [|discriminate].
      assert (Hin : In OpCreateComment (operations calls)).
      { rewrite Hops, Hplan; apply in_or_app; right; left; reflexivity. }
      unfold operations in Hin; apply in_map_iff in Hin.
      destruct Hin as [[c f] [Hop Hin]]; simpl in Hop.
      rewrite Forall_forall in Hret; pose proof (Hret _ Hin) as Hf.
      unfold returned in Hf; simpl in Hf; subst f.
      rewrite Ecalls in Hin; apply handler_calls_called in Hin.
      destruct c; try discriminate.
      exists owner, repo, issue, text; exact Hin.
    + intros [owner [repo [issue [text Hin]]]].
      destruct res as [[]|e]; [reflexivity|].
      exfalso.
      apply (@nothing_posted_on_failure _ _ _ Hpolicy e eq_refl
               owner repo issue text).
      exact Hin.
  - rewrite posting_count.
    remember (handler_calls evs) as calls eqn:Ecalls.
    remember (handler_error_lines evs) as lines eqn:Elines.
    assert (Hseg : exists rest, plan = operations calls ++ rest).
    { destruct Hrun as [calls Hops Hret | done c e rest Hret Hp].
      - exists []; rewrite app_nil_r; auto.
      - exists rest; rewrite Hp; unfold operations.
        rewrite map_app, <- app_assoc; reflexivity. }
    destruct Hseg as [rest Hseg].
    assert (Hlen : length (filter is_posting plan) = 1%nat)
      by (rewrite Hplan, filter_app, Hbody; reflexivity).
    rewrite Hseg, filter_app, length_app in Hlen; lia.
Qed.

(** X8. For both handlers: the comment is posted (a [createComment] call
    has returned) exactly when the handler returns normally, and no run
    calls [createComment] more than once. *)
Theorem comment_posted_iff_handled
  (P : Platform) (payload : Payload) (w : World P) :
  let r := handlePullRequestEvent P payload tt w in
  let r' := handlePullRequestCommentEvent P payload tt w in
  ((result r = Ok tt <-> comment_posted (events r)) /\
   (length (filter is_createComment (events r)) <= 1)%nat) /\
  ((result r' = Ok tt <-> comment_posted (events r')) /\
   (length (filter is_createComment (events r')) <= 1)%nat).
Proof.
  intros r r'; split.
  - apply posted_iff_completed
      with (plan := new_pr_plan)
           (body := [OpGetInstallationOctokit; OpListFiles;
                     OpGenerateCodeFeedback]);
      [reflexivity | reflexivity | apply new_pr_plan_posts_last |].
    apply handlePullRequestEvent_follows_plan.
  - apply posted_iff_completed
      with (plan := follow_up_plan)
           (body := [OpGetInstallationOctokit; OpPullsGet; OpListComments;
                     OpListFiles; OpGenerateFollowUpResponse]);
      [reflexivity | reflexivity | apply follow_up_plan_posts_last |].
    apply handlePullRequestCommentEvent_follows_plan.
Qed.

Section Emissions.

Variable P : Platform.
Variable Q : Event -> Prop.

Lemma emits_ret (L A : Type) (a : A) : emits Q (ret a : M P L A).
Proof. intros l w; constructor. Qed.

Lemma emits_throw (L A : Type) (e : Thrown) : emits Q (throw e : M P L A).
Proof. intros l w; constructor. Qed.

Lemma emits_console_log (L : Type) (line : jsstring) :
  Q (ConsoleLog line) -> emits Q (console_log line : M P L unit).
Proof. intros H l w; repeat constructor; exact H. Qed.

Lemma emits_console_error (L : Type) (line : jsstring)
  (arg : option Thrown) :
  Q (ConsoleError line arg) -> emits Q (console_error line arg : M P L unit).
Proof. intros H l w; repeat constructor; exact H. Qed.

Lemma emits_invoke (L A : Type) (c : ApiCall)
  (oracle : World P -> World P * outcome A) :
  (forall f, Q (Called c f)) -> emits Q (invoke c oracle : M P L A).
Proof. intros H l w; repeat constructor; apply H. Qed.

Lemma emits_bind (L A B : Type) (m : M P L A) (k : A -> M P L B) :
  emits Q m -> (forall a, emits Q (k a)) -> emits Q (bind m k).
Proof.
  intros Hm Hk l w; unfold bind.
  specialize (Hm l w).
  destruct (result (m l w)) as [a|e]; cbn [events]; [|exact Hm].
  apply Forall_app; split; [exact Hm | apply Hk].
Qed.

Lemma emits_try_catch (L A : Type) (body : M P L A)
  (handler : Thrown -> M P L A) :
  emits Q body -> (forall e, emits Q (handler e)) ->
  emits Q (try_catch body handler).
Proof.
  intros Hb Hh l w; unfold try_catch.
  specialize (Hb l w).
  destruct (result (body l w)) as [a|e]; cbn [events]; [exact Hb|].
  apply Forall_app; split; [exact Hb | apply Hh].
Qed.

Lemma emits_with_locals (L L' A : Type) (init : L') (m : M P L' A) :
  emits Q m -> emits Q (with_locals init m : M P L A).
Proof. intros Hm l w; apply Hm. Qed.

Lemma emits_for_of (L X : Type) (xs : list X) (body : X -> M P L unit) :
  (forall x, emits Q (body x)) -> emits Q (for_of xs body).
Proof.
  intros Hb; induction xs as [|x xs IH]; cbn [for_of].
  - apply emits_ret.
  - apply emits_bind; [apply Hb | intros _; exact IH].
Qed.

Lemma emits_bind_returning (L A B : Type) (R : A -> Prop)
  (m : M P L A) (k : A -> M P L B) :
  emits Q m ->
  (forall l w a, result (m l w) = Ok a -> R a) ->
  (forall a, R a -> emits Q (k a)) ->
  emits Q (bind m k).
Proof.
  intros Hm HR Hk l w; unfold bind.
  specialize (Hm l w); specialize (HR l w).
  destruct (result (m l w)) as [a|e]; cbn [events]; [|exact Hm].
  apply Forall_app; split; [exact Hm | apply Hk; apply HR; reflexivity].
Qed.

(** The aggregator emits nothing but its error lines. *)
Lemma emits_aggregate (L : Type) (arguments : list (JsValue P)) :
  (forall line e, Q (ConsoleError line (Some e))) ->
  emits Q (aggregateASTReport arguments : M P L Aggregate).
Proof.
  intros HQ l w; rewrite aggregateASTReport_run.
  destruct (parameter 2 arguments); cbn [events]; try constructor;
    unfold failure_lines; apply Forall_forall; intros ev Hev;
    apply in_map_iff in Hev; destruct Hev as [item [<- _]]; apply HQ.
Qed.

End Emissions.

(** Discharges [emits] along the syntax of a handler; what is left are the
    conditions on the single events. *)
Ltac emit :=
  cbv beta zeta;
  lazymatch goal with
  | |- emits _ (ret _) => apply emits_ret
  | |- emits _ (throw _) => apply emits_throw
  | |- emits _ (console_log _) => apply emits_console_log
  | |- emits _ (console_error _ _) => apply emits_console_error
  | |- emits _ (invoke _ _) => apply emits_invoke; intro
  | |- emits _ (bind (aggregateASTReport _) _) =>
      apply emits_bind_returning with (R := fun a => a = empty_report);
      [apply emits_aggregate; intros ? ?
      | intros ? ? ?; apply aggregateASTReport_result
      | intros ? ->; emit]
  | |- emits _ (bind _ _) => apply emits_bind; [emit | intro; emit]
  | |- emits _ (try_catch _ _) =>
      apply emits_try_catch; [emit | intro; emit]
  | |- emits _ (match ?e with JsError _ => _ | JsOther _ => _ end) =>
      destruct e; emit
  | |- emits _ (fetchChangedFilesData _ _ _ _) =>
      unfold fetchChangedFilesData; emit
  | |- emits _ (postComment _ _ _ _ _) => unfold postComment; emit
  | |- emits _ (log_and_rethrow _) => unfold log_and_rethrow; emit
  end.

(** X9. In every run of either handler, failing ones included: every call
    to the platform is addressed to the repository of the payload; every
    call that names a pull request or an issue names the one of the payload,
    or number 0 when the payload has none; the listing asks for one page of
    100 files; no file content is ever requested and the parser is never
    called; and a generator that is called receives empty strings for
    [rawCode] and [astReport]. *)
Theorem calls_stay_on_the_payload_target
  (P : Platform) (payload : Payload) (w : World P) :
  let owner := repository_owner_login payload in
  let repo := repository_name payload in
  Forall (event_addressed owner repo
            (nullish (pull_request_number payload) 0))
    (events (handlePullRequestEvent P payload tt w)) /\
  Forall (event_addressed owner repo (nullish (issue_number payload) 0))
    (events (handlePullRequestCommentEvent P payload tt w)).
Proof.
  intros owner repo; subst owner repo; split.
  - revert w; generalize tt.
    change (emits (event_addressed (repository_owner_login payload)
                     (repository_name payload)
                     (nullish (pull_request_number payload) 0))
              (handlePullRequestEvent P payload)).
    unfold handlePullRequestEvent; emit; simpl; auto.
  - revert w; generalize tt.
    change (emits (event_addressed (repository_owner_login payload)
                     (repository_name payload)
                     (nullish (issue_number payload) 0))
              (handlePullRequestCommentEvent P payload)).
    unfold handlePullRequestCommentEvent; emit; simpl; auto.
Qed.

(** ** Conversation context *)

Lemma prefix_length (c : Comment) : (1 <= length (prefix c) <= 14)%nat.
Proof. unfold prefix; destruct (isBot c); cbn; lia. Qed.

Lemma format_comment_nonempty (c : Comment) : format_comment c <> [].
Proof.
  unfold format_comment; pose proof (prefix_length c) as H.
  destruct (prefix c); [simpl in H; lia | discriminate].
Qed.

Lemma join_nonempty (sep x : jsstring) (xs : list jsstring) :
  x <> [] -> join sep (x :: xs) <> [].
Proof.
  intros Hx; destruct xs as [|y ys]; cbn [join]; [exact Hx|].
  destruct x; [congruence | discriminate].
Qed.

(** X10. The transcript is the empty string exactly when the thread has no
    comment: every comment kept, whatever it lacks, leaves an entry. *)
Theorem transcript_empty_iff_no_comment (comments : list Comment) :
  previousComments comments = [] <-> comments = [].
Proof.
  split; [|intros ->; reflexivity].
  intros H; destruct comments as [|c comments]; [reflexivity|exfalso].
  destruct (window_of_thirty (c :: comments)) as [older [_ Hlen]].
  unfold previousComments in H.
  destruct (slice (-30) (c :: comments)) as [|x window];
    [simpl in Hlen; lia|].
  cbn [map] in H.
  exact (@join_nonempty (nl ++ nl) (format_comment x)
           (map format_comment window) (@format_comment_nonempty x) H).
Qed.

(** X11. A comment without an author, or whose author has the empty login,
    is rendered under the name [unknown] with the label of a user. *)
Theorem anonymous_comment_entry (c : Comment) :
  user_login c = None \/ user_login c = Some [] ->
  format_comment c
  = lit "[USER] unknown: " ++ rendered_body c ++ ellipsis c.
Proof.
  intros H; unfold format_comment, prefix, username, isBot.
  destruct H as [-> | ->]; reflexivity.
Qed.

Lemma anonymous_comment_entry_witness :
  format_comment {| user := None; body := Some (lit "ping") |}
  = lit "[USER] unknown: ping".
Proof.
  apply (@anonymous_comment_entry {| user := None; body := Some (lit "ping") |}).
  left; reflexivity.
Defined.

Lemma ellipsis_length (c : Comment) : (length (ellipsis c) <= 3)%nat.
Proof.
  destruct (ellipsis_cases c) as [[-> _]|[-> _]]; cbn; lia.
Qed.

Lemma format_comment_length (c : Comment) :
  (length (format_comment c) <= 520 + length (username c))%nat.
Proof.
  unfold format_comment; rewrite !length_app.
  pose proof (prefix_length c).
  pose proof (ellipsis_length c).
  assert (length (rendered_body c) <= 500)%nat
    by (rewrite rendered_body_is_prefix, length_firstn; lia).
  change (length (lit " ")) with 1%nat.
  change (length (lit ": ")) with 2%nat.
  lia.
Qed.

Lemma join_length (sep : jsstring) (xs : list jsstring) (k : nat) :
  (forall x, In x xs -> length x <= k)%nat ->
  (length (join sep xs) <= length xs * (k + length sep))%nat.
Proof.
  induction xs as [|x xs IH]; intros Hk; [simpl; lia|].
  assert (Hx : (length x <= k)%nat) by (apply Hk; left; reflexivity).
  assert (Hxs : (length (join sep xs) <= length xs * (k + length sep))%nat)
    by (apply IH; intros y Hy; apply Hk; right; exact Hy).
  destruct xs as [|y ys]; cbn [join].
  - simpl; lia.
  - rewrite !length_app.
    change (length (x :: y :: ys)) with (S (length (y :: ys))).
    cbn [join] in Hxs. lia.
Qed.

Lemma slice_incl (A : Type) (start : Z) (xs : list A) (x : A) :
  In x (slice start xs) -> In x xs.
Proof.
  unfold slice; intros H.
  rewrite <- (firstn_skipn
                (Z.to_nat
                   (if start <? 0
                    then Z.max (Z.of_nat (length xs) + start) 0
                    else Z.min start (Z.of_nat (length xs)))) xs).
  apply in_or_app; right; exact H.
Qed.

(** X12. The transcript is bounded whatever the length of the thread and of
    its comments: when no author name exceeds [bound] code units, the
    transcript has at most [30 * (522 + bound)]. *)
Theorem transcript_is_bounded (comments : list Comment) (bound : nat) :
  (forall c, In c comments -> length (username c) <= bound)%nat ->
  (length (previousComments comments) <= 30 * (522 + bound))%nat.
Proof.
  intros Hb; unfold previousComments.
  destruct (window_of_thirty comments) as [older [_ Hlen]].
  pose proof (@join_length (nl ++ nl)
                (map format_comment (slice (-30) comments))
                (520 + bound)) as Hj.
  rewrite length_map in Hj.
  change (length (nl ++ nl)) with 2%nat in Hj.
  assert (Hall : forall x,
             In x (map format_comment (slice (-30) comments)) ->
             (length x <= 520 + bound)%nat).
  { intros x Hx; apply in_map_iff in Hx; destruct Hx as [c [<- Hc]].
    pose proof (format_comment_length c).
    pose proof (Hb c (slice_incl _ _ _ Hc)); lia. }
  specialize (Hj Hall).
  nia.
Qed.

Lemma transcript_is_bounded_witness :
  (length (previousComments (map numbered_comment (seq 1 45)))
   <= 30 * (522 + 7))%nat.
Proof.
  apply (@transcript_is_bounded (map numbered_comment (seq 1 45)) 7).
  intros c Hc; apply in_map_iff in Hc; destruct Hc as [n [<- _]].
  apply le_n.
Defined.

(** ** A failure of the listing *)

Section ListingFailure.

Variable P : Platform.

Lemma invoke_throws (L A : Type) (c : ApiCall)
  (oracle : World P -> World P * outcome A)
  (l : L) (w w' : World P) (e : Thrown) :
  oracle w = (w', Throw e) ->
  invoke c oracle l w = mkRun l w' [Called c (Some e)] (Throw e).
Proof. intros H; unfold invoke; rewrite H; reflexivity. Qed.

Lemma bind_throws (L A B : Type) (m : M P L A) (k : A -> M P L B)
  (l l1 : L) (w w1 : World P) (ev1 : list Event) (e : Thrown) :
  m l w = mkRun l1 w1 ev1 (Throw e) ->
  bind m k l w = mkRun l1 w1 ev1 (Throw e).
Proof. intros Hm; unfold bind; rewrite Hm; reflexivity. Qed.

Lemma try_catch_throws (L A : Type) (body : M P L A)
  (handler : Thrown -> M P L A)
  (l l1 l2 : L) (w w1 w2 : World P) (ev1 ev2 : list Event)
  (e : Thrown) (r : outcome A) :
  body l w = mkRun l1 w1 ev1 (Throw e) ->
  handler e l1 w1 = mkRun l2 w2 ev2 r ->
  try_catch body handler l w = mkRun l2 w2 (ev1 ++ ev2) r.
Proof.
  intros Hb Hh; unfold try_catch; rewrite Hb; simpl; rewrite Hh; reflexivity.
Qed.

Lemma log_and_rethrow_run (A : Type) (e : Thrown) (l : unit) (w : World P) :
  log_and_rethrow (P := P) (A := A) e l w
  = mkRun l w
      (match e with
       | JsError message => [ConsoleError (handler_error_line message) None]
       | JsOther _ => []
       end) (Throw e).
Proof. destruct e; reflexivity. Qed.

(** X13. When the listing of the changed files throws [e], a new pull
    request is handled no further: no content is requested, the parser and
    the generator are not called, nothing is posted; the handler writes its
    error line if [e] is an [Error], and throws [e]. *)
Theorem listing_failure_stops_the_handler
  (payload : Payload) (w w1 w2 : World P) (octokit : Octokit P)
  (e : Thrown) :
  let owner := repository_owner_login payload in
  let repo := repository_name payload in
  let number := nullish (pull_request_number payload) 0 in
  getInstallationOctokit P (installation_id payload) w = (w1, Ok octokit) ->
  pulls_listFiles P octokit owner repo number 100 w1 = (w2, Throw e) ->
  handlePullRequestEvent P payload tt w
  = mkRun tt w2
      ([Called (CallGetInstallationOctokit (installation_id payload)) None;
        Called (CallListFiles owner repo number 100) (Some e)]
       ++ match e with
          | JsError message =>
              [ConsoleError (handler_error_line message) None]
          | JsOther _ => []
          end)
      (Throw e).
Proof.
  intros owner repo number Hauth Hlist.
  unfold handlePullRequestEvent.
  etransitivity.
  - eapply bind_run; [apply invoke_returns; exact Hauth|].
    cbv beta zeta; eapply try_catch_throws; [|apply log_and_rethrow_run].
    apply bind_throws; unfold fetchChangedFilesData.
    apply bind_throws; apply invoke_throws; exact Hlist.
  - reflexivity.
Qed.

End ListingFailure.

Lemma listing_failure_stops_the_handler_witness :
  let script :=
    {| on_getInstallationOctokit := Ok tt;
       on_listFiles := Throw (JsError (lit "Not Found"));
       on_getContent := sample_content;
       on_parseCode := sample_parse;
       on_pullsGet := Ok tt;
       on_listComments := Ok [];
       on_generate := Ok (lit "LGTM");
       on_createComment := Ok tt |} in
  let r := handlePullRequestEvent (scripted script) sample_payload tt 0%nat in
  result r = Throw (JsError (lit "Not Found")) /\
  content_requests (events r) = [] /\
  parse_inputs (events r) = [] /\
  length (events r) = 3%nat.
Proof.
  intros script r; subst r.
  rewrite (@listing_failure_stops_the_handler (scripted script)
             sample_payload 0%nat 1%nat 2%nat tt
             (JsError (lit "Not Found")) eq_refl eq_refl).
  repeat split.
Defined.
